(** * qufafeat: column specifications and feature selection

    A shallow embedding of
    - [featuretools/mkfeat/columnspec.py] (class [ColumnSpec]) and
    - [featuretools/selection/selection.py] (the four selection filters),
    followed by the properties their specification states about them.

    Python dictionaries with string keys are finite maps ([gmap string _]),
    Python values are the inductive [value], exceptions are the [Raise] case
    of [result], the memoised attribute of [ColumnSpec] is threaded as
    explicit state, and Python floats are the kernel's binary64 floats. *)

From Stdlib Require Import Floats.
From stdpp Require Import base decidable option list strings pretty gmap sets.

Local Open Scope string_scope.
Local Open Scope nat_scope.
Local Open Scope list_scope.

(** ** Python values, exceptions *)

Module Py.

(** The values a column descriptor can hold (JSON scalars). *)
Inductive value : Type :=
| VNone
| VBool (b : bool)
| VInt (z : Z)
| VStr (s : string).

Global Instance value_eq_dec : EqDecision value.
Proof. solve_decision. Defined.

(** [bool(v)]: Python truth value testing. *)
Definition truthy (v : value) : bool :=
  match v with
  | VNone => false
  | VBool b => b
  | VInt z => negb (Z.eqb z 0)
  | VStr s => negb (String.eqb s "")
  end.

(** [a == b]; a [bool] is the integer 0 or 1. *)
Definition py_eq (a b : value) : bool :=
  match a, b with
  | VNone, VNone => true
  | VBool x, VBool y => Bool.eqb x y
  | VBool x, VInt z | VInt z, VBool x => Z.eqb (if x then 1 else 0) z
  | VInt x, VInt y => Z.eqb x y
  | VStr x, VStr y => String.eqb x y
  | _, _ => false
  end.

(** [x in xs] for a list or tuple [xs]. *)
Definition py_in (x : value) (xs : list value) : bool :=
  existsb (py_eq x) xs.

Inductive exn : Type :=
| KeyError (key : string)
| ValueError (msg : string)
| UnboundLocalError (var : string).

Inductive result (A : Type) : Type :=
| Ok (a : A)
| Raise (e : exn).
Global Arguments Ok {A} a.
Global Arguments Raise {A} e.

Global Instance result_bind : MBind result := λ A B k m,
  match m with
  | Ok a => k a
  | Raise e => Raise e
  end.

Global Instance result_ret : MRet result := λ A a, Ok a.

Definition returns {A} (m : result A) : Prop := ∃ a, m = Ok a.

(** An insertion-ordered [dict]: [d[k] = v] replaces the value of a
    present key in place and appends an absent one. *)
Section dict.
Context {K A : Type} (eqb : K → K → bool).

Definition dict_contains (d : list (K * A)) (k : K) : bool :=
  existsb (λ kv, eqb kv.1 k) d.

Fixpoint dict_set (d : list (K * A)) (k : K) (v : A) : list (K * A) :=
  match d with
  | [] => [(k, v)]
  | (k', v') :: d' =>
      if eqb k' k then (k', v) :: d' else (k', v') :: dict_set d' k v
  end.

Definition dict_get (d : list (K * A)) (k : K) : option A :=
  snd <$> find (λ kv, eqb kv.1 k) d.
End dict.

End Py.

Export Py.

(** ** [featuretools/mkfeat/columnspec.py] *)

Module ColumnSpec.

(** [from .error import Error]: the codes [validate] returns. *)
Inductive Error : Type :=
| OK
| ERR_COLUMN_HAS_NO_NAME_OR_TYPE
| ERR_COLUMN_MULTI_KEY
| ERR_COLUMN_KEY_AND_LABEL
| ERR_COLUMN_MULTI_LABEL.

Global Instance Error_eq_dec : EqDecision Error.
Proof. solve_decision. Defined.

Inductive converter : Type := pd_to_numeric | pd_to_datetime.
Inductive dtype : Type := py_bool.

Definition _mkfeat_typestr_to_converter : list (string * converter) :=
  [("number", pd_to_numeric); ("date", pd_to_datetime)].

Definition _mkfeat_typestr_to_dtype : list (string * dtype) :=
  [("bool", py_bool)].

(** A column descriptor is a dictionary. *)
Abbreviation colinfo := (gmap string value).

(** [k in colinfo] *)
Definition contains (d : colinfo) (k : string) : bool :=
  bool_decide (is_Some (d !! k)).

(** [colinfo[k]] *)
Definition getitem (d : colinfo) (k : string) : result value :=
  match d !! k with
  | Some v => Ok v
  | None => Raise (KeyError k)
  end.

(** [k in colinfo and colinfo[k]], as a condition. *)
Definition flag (d : colinfo) (k : string) : bool :=
  match d !! k with
  | Some v => truthy v
  | None => false
  end.

Record t : Type := Build {
  columns : list colinfo;
  _auto_keyname : option string   (* [None] is Python's [None] *)
}.

(** [__init__] *)
Definition init (columns : list colinfo) : t :=
  {| columns := columns; _auto_keyname := None |}.

(** *** [validate] *)

(** One pass of the loop body: either [return e] or the two flags for
    the next iteration. *)
Definition validate_body (colinfo : colinfo) (has_key has_label : bool)
  : Error + bool * bool :=
  if negb (contains colinfo "name") || negb (contains colinfo "type")
  then inl ERR_COLUMN_HAS_NO_NAME_OR_TYPE
  else
    let after_key : Error + bool :=
      if contains colinfo "key" then
        if flag colinfo "key" then
          if has_key then inl ERR_COLUMN_MULTI_KEY
          else if contains colinfo "label" && flag colinfo "label"
               then inl ERR_COLUMN_KEY_AND_LABEL
               else inr true
        else inr has_key
      else inr has_key in
    match after_key with
    | inl e => inl e
    | inr has_key =>
        if contains colinfo "label" then
          if flag colinfo "label" then
            if has_label then inl ERR_COLUMN_MULTI_LABEL
            else inr (has_key, true)
          else inr (has_key, has_label)
        else inr (has_key, has_label)
    end.

Fixpoint validate_loop (cols : list colinfo) (has_key has_label : bool)
  : Error :=
  match cols with
  | [] => OK
  | colinfo :: cols =>
      match validate_body colinfo has_key has_label with
      | inl e => e
      | inr (has_key, has_label) => validate_loop cols has_key has_label
      end
  end.

Definition validate (self : t) : Error :=
  validate_loop (columns self) false false.

(** *** Queries *)

(** [_is_numeric_type] *)
Definition _is_numeric_type (typestr : value) : bool :=
  py_in typestr [VStr "number"; VStr "bool"].

(** A key of the two type tables is a string; a value that is not a
    string equals none of them. *)
Definition typestr_eqb (k : string) (typestr : value) : bool :=
  py_eq (VStr k) typestr.

(** [_get_dtype_from_strtype]; [None] is Python's [None]. *)
Definition _get_dtype_from_strtype (typestr : value) : option dtype :=
  snd <$> find (λ kv, typestr_eqb kv.1 typestr) _mkfeat_typestr_to_dtype.

(** [_get_converter_from_strtype] *)
Definition _get_converter_from_strtype (typestr : value) : option converter :=
  snd <$> find (λ kv, typestr_eqb kv.1 typestr) _mkfeat_typestr_to_converter.

Fixpoint get_colnames_loop (cols : list colinfo) (colnames : list value)
  : result (list value) :=
  match cols with
  | [] => Ok colnames
  | colinfo :: cols =>
      name ← getitem colinfo "name";
      get_colnames_loop cols (colnames ++ [name])
  end.

Definition get_colnames (self : t) : result (list value) :=
  get_colnames_loop (columns self) [].

(** The three guards of [get_usecols]; [Ok true] means [continue]. *)
Definition usecols_skip (numeric_only label_only exclude_skip : bool)
  (colinfo : colinfo) : result bool :=
  skip1 ← (if numeric_only
           then ty ← getitem colinfo "type"; Ok (negb (_is_numeric_type ty))
           else Ok false);
  if skip1 : bool then Ok true
  else if label_only && negb (flag colinfo "label") then Ok true
  else if exclude_skip &&
          (flag colinfo "label" || flag colinfo "train" || flag colinfo "bypass")
  then Ok true
  else Ok false.

Fixpoint get_usecols_loop (numeric_only label_only exclude_skip : bool)
  (cols : list colinfo) (colnames : list value) : result (list value) :=
  match cols with
  | [] => Ok colnames
  | colinfo :: cols =>
      skip ← usecols_skip numeric_only label_only exclude_skip colinfo;
      if skip : bool
      then get_usecols_loop numeric_only label_only exclude_skip cols colnames
      else
        name ← getitem colinfo "name";
        get_usecols_loop numeric_only label_only exclude_skip cols
          (colnames ++ [name])
  end.

Definition get_usecols (self : t)
  (numeric_only label_only exclude_skip : bool) : result (list value) :=
  get_usecols_loop numeric_only label_only exclude_skip (columns self) [].

Fixpoint get_dtypes_loop (cols : list colinfo) (dtypes : list (value * dtype))
  : result (list (value * dtype)) :=
  match cols with
  | [] => Ok dtypes
  | colinfo :: cols =>
      ty ← getitem colinfo "type";
      match _get_dtype_from_strtype ty with
      | Some dtype =>
          name ← getitem colinfo "name";
          get_dtypes_loop cols (dict_set py_eq dtypes name dtype)
      | None => get_dtypes_loop cols dtypes
      end
  end.

Definition get_dtypes (self : t) : result (list (value * dtype)) :=
  get_dtypes_loop (columns self) [].

Fixpoint get_converters_loop (cols : list colinfo)
  (converters : list (value * converter)) : result (list (value * converter)) :=
  match cols with
  | [] => Ok converters
  | colinfo :: cols =>
      ty ← getitem colinfo "type";
      match _get_converter_from_strtype ty with
      | Some converter =>
          name ← getitem colinfo "name";
          get_converters_loop cols (dict_set py_eq converters name converter)
      | None => get_converters_loop cols converters
      end
  end.

Definition get_converters (self : t) : result (list (value * converter)) :=
  get_converters_loop (columns self) [].

(** The loop shared by [get_key_colname], [get_label_colname] and
    [get_train_colname]: the name of the first descriptor whose flag [k]
    is set, or [None] when the loop runs to its end. *)
Fixpoint first_flagged (k : string) (cols : list colinfo)
  : result (option value) :=
  match cols with
  | [] => Ok None
  | colinfo :: cols =>
      if flag colinfo k
      then name ← getitem colinfo "name"; Ok (Some name)
      else first_flagged k cols
  end.

(** [range(1, 100000)] has 99999 elements. *)
Definition auto_keyname_bound : N := 99999.

(** ["id_{}".format(i)] *)
Definition id_format (i : N) : string := "id_" +:+ pretty i.

(** The [for i in range(...)] loop of [_setup_auto_keyname], [n]
    iterations from [i] on; [keyname] is the local variable, unbound
    ([None]) before the first iteration. *)
Fixpoint auto_keyname_loop (n : nat) (i : N) (colnames : list value)
  (keyname : option string) : option string :=
  match n with
  | O => keyname
  | S n =>
      let keyname := id_format i in
      if negb (py_in (VStr keyname) colnames) then Some keyname
      else auto_keyname_loop n (N.succ i) colnames (Some keyname)
  end.

(** [_setup_auto_keyname] *)
Definition _setup_auto_keyname (self : t) : result t :=
  if from_option (λ s, truthy (VStr s)) false (_auto_keyname self)
  then Ok self
  else
    colnames ← get_colnames self;
    keyname ← (if negb (py_in (VStr "id") colnames) then Ok "id"
               else match auto_keyname_loop (N.to_nat auto_keyname_bound) 1
                            colnames None with
                    | Some keyname => Ok keyname
                    | None => Raise (UnboundLocalError "keyname")
                    end);
    Ok {| columns := columns self; _auto_keyname := Some keyname |}.

(** [get_key_colname]: the value returned and the instance afterwards. *)
Definition get_key_colname (self : t) : result (value * t) :=
  found ← first_flagged "key" (columns self);
  match found with
  | Some name => Ok (name, self)
  | None =>
      self ← _setup_auto_keyname self;
      Ok (from_option VStr VNone (_auto_keyname self), self)
  end.

(** [is_auto_keyname] *)
Definition is_auto_keyname (self : t) : bool :=
  if from_option (λ s, truthy (VStr s)) false (_auto_keyname self)
  then true else false.

(** [get_label_colname]; [VNone] is the [return None] after the loop. *)
Definition get_label_colname (self : t) : result value :=
  found ← first_flagged "label" (columns self);
  Ok (default VNone found).

(** [get_train_colname] *)
Definition get_train_colname (self : t) : result value :=
  found ← first_flagged "train" (columns self);
  Ok (default VNone found).

Fixpoint get_bypass_colnames_loop (cols : list colinfo) (colnames : list value)
  : result (list value) :=
  match cols with
  | [] => Ok colnames
  | colinfo :: cols =>
      if flag colinfo "bypass"
      then name ← getitem colinfo "name";
           get_bypass_colnames_loop cols (colnames ++ [name])
      else get_bypass_colnames_loop cols colnames
  end.

Definition get_bypass_colnames (self : t) : result (list value) :=
  get_bypass_colnames_loop (columns self) [].

Fixpoint get_is_numerics_loop (cols : list colinfo) (is_numerics : list bool)
  : result (list bool) :=
  match cols with
  | [] => Ok is_numerics
  | colinfo :: cols =>
      if flag colinfo "label" || flag colinfo "bypass"
      then get_is_numerics_loop cols (is_numerics ++ [false])
      else ty ← getitem colinfo "type";
           get_is_numerics_loop cols (is_numerics ++ [_is_numeric_type ty])
  end.

Definition get_is_numerics (self : t) : result (list bool) :=
  get_is_numerics_loop (columns self) [].

End ColumnSpec.

(** ** The part of pandas the selection filters call

    A feature matrix is a [DataFrame]: labelled columns in order, each a
    [Series] with a storage dtype and one cell per row. A cell is [None]
    when the value is missing (NaN, None, NaT). The operations below are
    those [selection.py] calls, on a frame whose labels are pairwise
    distinct (the columns of a feature matrix are its feature names). *)

Module pd.

Section frame.
Context {V : Type} `{EqDecision V}.

Record Series : Type := mkSeries {
  dtype : string;
  values : list (option V)
}.

Local Abbreviation DataFrame := (list (string * Series)).

(** [df.columns], also the labels [for c in df] iterates over. *)
Definition columns (df : DataFrame) : list string := df.*1.

(** [df[c]] for one label [c]. *)
Definition getitem (df : DataFrame) (c : string) : result Series :=
  match find (λ kv, String.eqb kv.1 c) df with
  | Some kv => Ok kv.2
  | None => Raise (KeyError c)
  end.

(** [df[labels]] for a list of labels: a new frame with these columns, in
    the order of the list; a label that is no column raises. *)
Fixpoint getitem_list (df : DataFrame) (labels : list string)
  : result DataFrame :=
  match labels with
  | [] => Ok []
  | c :: labels =>
      s ← getitem df c;
      rest ← getitem_list df labels;
      Ok ((c, s) :: rest)
  end.

(** [s.dropna()] *)
Definition dropna (s : Series) : list (option V) :=
  filter (λ x, is_Some x) (values s).

(** [s.nunique(dropna)]: the number of distinct values, the missing value
    counting as one of them unless [dropna]. *)
Definition nunique (na_dropped : bool) (s : Series) : nat :=
  length (remove_dups (if na_dropped then dropna s else values s)).

(** The number of missing cells: [s.isnull().sum()]. *)
Definition null_count (s : Series) : nat :=
  length (filter (λ x, x = None) (values s)).

(** An integer count as a float. *)
Definition float_of_nat (n : nat) : float :=
  PrimFloat.of_uint63 (Uint63.of_Z (Z.of_nat n)).

(** [s.isnull().mean()]: the sum of the flags over their number, in
    binary64; NaN for a series of no rows. *)
Definition isnull_mean (s : Series) : float :=
  PrimFloat.div (float_of_nat (null_count s))
                (float_of_nat (length (values s))).

(** [df.select_dtypes(include)] *)
Definition select_dtypes (include : list string) (df : DataFrame)
  : DataFrame :=
  filter (λ kv, dtype kv.2 ∈ include) df.

(** [series.to_dict()] of a per-column result: the entries are inserted
    into a dictionary in order. *)
Definition to_dict {A} (entries : list (string * A)) : list (string * A) :=
  foldl (λ d kv, dict_set String.eqb d kv.1 kv.2) [] entries.

End frame.

Global Arguments Series : clear implicits.

(** A frame: its labelled columns, in order. *)
Abbreviation DataFrame V := (list (string * Series V)).

End pd.

(** ** [featuretools/selection/selection.py] *)

Module Selection.

Section selection.
Context {V : Type} `{EqDecision V}.

(** Objects live in a store; a frame is passed by reference. *)
Local Abbreviation loc := positive.
Local Abbreviation store := (gmap positive (pd.DataFrame V)).

(** A feature matrix: a frame with pairwise distinct column labels. *)
Record FeatureMatrix : Type := mkFeatureMatrix {
  frame :> pd.DataFrame V;
  frame_labels : NoDup (pd.columns frame)
}.

(** *** [remove_low_information_features] *)

(** The condition of the list comprehension, for the column [c]. *)
Definition keep_column (s : pd.Series V) : bool :=
  (1 <? pd.nunique false s)%nat && (0 <? length (pd.dropna s))%nat.

(** [[c for c in feature_matrix if ...]], the labels left to visit. *)
Fixpoint keep_loop (feature_matrix : pd.DataFrame V) (labels : list string)
  : result (list string) :=
  match labels with
  | [] => Ok []
  | c :: labels =>
      s ← pd.getitem feature_matrix c;
      keep ← keep_loop feature_matrix labels;
      Ok (if keep_column s then c :: keep else keep)
  end.

Section features.
(** The optional companion list holds feature objects with a name. *)
Context {F : Type} (get_name : F → string).

(** The function reads the frame at [feature_matrix], binds its local name
    to the new frame that [feature_matrix[keep]] allocates, and returns it
    (with the filtered [features] when they are given). *)
Definition remove_low_information_features
    (feature_matrix : loc) (features : option (list F)) (σ : store)
  : result ((loc * option (list F)) * store) :=
  match σ !! feature_matrix with
  | None => Raise (ValueError "no such object")
  | Some df =>
      keep ← keep_loop df (pd.columns df);
      selected ← pd.getitem_list df keep;
      let r := fresh (dom σ) in
      let σ := <[r := selected]> σ in
      match features with
      | Some features =>
          let features :=
            filter (λ f, get_name f ∈ pd.columns selected) features in
          Ok ((r, Some features), σ)
      | None => Ok ((r, None), σ)
      end
  end.
End features.

(** *** [find_highly_null_features] *)

Definition find_highly_null_features
    (feature_matrix : pd.DataFrame V) (pct_null_threshold : float)
  : result (list string) :=
  if PrimFloat.ltb pct_null_threshold 0 || PrimFloat.ltb 1 pct_null_threshold
  then Raise (ValueError
    "pct_null_threshold must be a float between 0 and 1, inclusive.")
  else
    let percent_null_by_col :=
      pd.to_dict (map (λ kv, (kv.1, pd.isnull_mean kv.2)) feature_matrix) in
    Ok (map fst
          (filter (λ kv, PrimFloat.ltb pct_null_threshold kv.2 = true)
                  percent_null_by_col)).

(** *** [find_single_value_features] *)

Definition find_single_value_features
    (feature_matrix : pd.DataFrame V) (count_nan_as_value : bool)
  : list string :=
  let unique_counts_by_col :=
    pd.to_dict (map (λ kv, (kv.1, pd.nunique (negb count_nan_as_value) kv.2))
                    feature_matrix) in
  map fst (filter (λ kv, (kv.2 ≤ 1)%nat) unique_counts_by_col).

(** *** [find_highly_correlated_features] *)

Definition numeric_dtypes : list string :=
  ["int16"; "int32"; "int64"; "float16"; "float32"; "float64"].
Definition boolean : list string := ["bool"].
Definition numeric_and_boolean_dtypes : list string :=
  numeric_dtypes ++ boolean.

(** [tuple(sorted((f_name1, f_name2)))] *)
Definition sorted_pair (f_name1 f_name2 : string) : string * string :=
  if String.ltb f_name2 f_name1 then (f_name2, f_name1)
  else (f_name1, f_name2).

Definition pair_eqb (p q : string * string) : bool :=
  String.eqb p.1 q.1 && String.eqb p.2 q.2.

Section correlation.
(** [col1.corr(col2)] is the library's; the order in which a set is
    iterated is the interpreter's. *)
Context (corr : pd.Series V → pd.Series V → float).
Context (set_iter : gset string → list string).

(** The inner loop, for the column of the outer one. *)
Fixpoint corr_inner (f_name1 : string) (col1 : pd.Series V)
    (items : pd.DataFrame V)
    (highly_correlated_by_pairs : list ((string * string) * float))
  : list ((string * string) * float) :=
  match items with
  | [] => highly_correlated_by_pairs
  | (f_name2, col2) :: items =>
      let pair := sorted_pair f_name1 f_name2 in
      if String.eqb f_name1 f_name2
         || dict_contains pair_eqb highly_correlated_by_pairs pair
      then corr_inner f_name1 col1 items highly_correlated_by_pairs
      else corr_inner f_name1 col1 items
             (dict_set pair_eqb highly_correlated_by_pairs pair
                       (PrimFloat.abs (corr col1 col2)))
  end.

(** The outer loop over the items left, [fm_to_check] being the frame. *)
Fixpoint corr_outer (items fm_to_check : pd.DataFrame V)
    (highly_correlated_by_pairs : list ((string * string) * float))
  : list ((string * string) * float) :=
  match items with
  | [] => highly_correlated_by_pairs
  | (f_name1, col1) :: items =>
      corr_outer items fm_to_check
        (corr_inner f_name1 col1 fm_to_check highly_correlated_by_pairs)
  end.

(** The frame the correlations are computed on. *)
Definition frame_to_check (feature_matrix : pd.DataFrame V)
    (features_to_check features_to_exclude : option (gset string))
  : result (pd.DataFrame V) :=
  let features_to_check :=
    match features_to_check with
    | None => list_to_set (pd.columns feature_matrix)
    | Some features_to_check => features_to_check
    end in
  let features_to_check :=
    match features_to_exclude with
    | Some features_to_exclude =>
        filter (λ col, col ∉ features_to_exclude) features_to_check
    | None => features_to_check
    end in
  selected ← pd.getitem_list feature_matrix (set_iter features_to_check);
  Ok (pd.select_dtypes numeric_and_boolean_dtypes selected).

Definition find_highly_correlated_features
    (feature_matrix : pd.DataFrame V) (pct_corr_threshold : float)
    (features_to_check features_to_exclude : option (gset string))
  : result (list (string * string)) :=
  if PrimFloat.ltb pct_corr_threshold 0 || PrimFloat.ltb 1 pct_corr_threshold
  then Raise (ValueError
    "pct_corr_threshold must be a float between 0 and 1, inclusive.")
  else
    fm_to_check ←
      frame_to_check feature_matrix features_to_check features_to_exclude;
    let highly_correlated_by_pairs := corr_outer fm_to_check fm_to_check [] in
    Ok (map fst
          (filter (λ kv, PrimFloat.leb pct_corr_threshold kv.2 = true)
                  highly_correlated_by_pairs)).

End correlation.
End selection.

Global Arguments FeatureMatrix : clear implicits.

Abbreviation loc := positive.
Abbreviation store V := (gmap positive (pd.DataFrame V)).

End Selection.

(** ** The specification's reading of [ColumnSpec]

    The definitions of this module follow the words of the specification;
    the theorems below compare them with the code. *)

Module ColumnSpecSpec.
Import ColumnSpec.

(** A descriptor "has [k] = true". For a boolean field this is
    [d !! k = Some (VBool true)] (lemma [is_set_bool]); the code tests the
    truth value of whatever the field holds. *)
Definition is_set (d : colinfo) (k : string) : Prop := flag d k = true.

Global Instance is_set_dec d k : Decision (is_set d k).
Proof. unfold is_set. apply _. Defined.

Definition has_name_and_type (d : colinfo) : Prop :=
  is_Some (d !! "name") ∧ is_Some (d !! "type").

(** How many descriptors of [l] have [k] = true. *)
Definition count_set (k : string) (l : list colinfo) : nat :=
  length (filter (λ d, is_set d k) l).

(** The four invariants of the data model. *)
Definition valid_columns (l : list colinfo) : Prop :=
  Forall has_name_and_type l
  ∧ count_set "key" l ≤ 1
  ∧ count_set "label" l ≤ 1
  ∧ Forall (λ d, ¬ (is_set d "key" ∧ is_set d "label")) l.

(** The violation the descriptor [d] commits after the descriptors [seen],
    the four checks in their order. *)
Definition violation (seen : list colinfo) (d : colinfo) : option Error :=
  if decide (¬ has_name_and_type d)
  then Some ERR_COLUMN_HAS_NO_NAME_OR_TYPE
  else if decide (is_set d "key" ∧ Exists (λ d', is_set d' "key") seen)
  then Some ERR_COLUMN_MULTI_KEY
  else if decide (is_set d "key" ∧ is_set d "label")
  then Some ERR_COLUMN_KEY_AND_LABEL
  else if decide (is_set d "label" ∧ Exists (λ d', is_set d' "label") seen)
  then Some ERR_COLUMN_MULTI_LABEL
  else None.

(** The code of the first violation of [rest], scanned in order after
    [seen]; [OK] when there is none. *)
Fixpoint first_violation (seen rest : list colinfo) : Error :=
  match rest with
  | [] => OK
  | d :: rest =>
      match violation seen d with
      | Some e => e
      | None => first_violation (seen ++ [d]) rest
      end
  end.

(** A descriptor passes the filters of [get_usecols] that are active. *)
Definition passes (numeric_only label_only exclude_skip : bool)
    (d : colinfo) : Prop :=
  (numeric_only = true →
     d !! "type" = Some (VStr "number") ∨ d !! "type" = Some (VStr "bool"))
  ∧ (label_only = true → is_set d "label")
  ∧ (exclude_skip = true →
       ¬ is_set d "label" ∧ ¬ is_set d "train" ∧ ¬ is_set d "bypass").

Global Instance passes_dec n l e d : Decision (passes n l e d).
Proof. unfold passes. apply _. Defined.

(** The name of a descriptor, [VNone] standing in where there is none. *)
Definition name_of (d : colinfo) : value := default VNone (d !! "name").

(** The candidates for a generated key name, in the order they are tried:
    ["id"], ["id_1"], ["id_2"], ... *)
Definition candidate (j : N) : string :=
  if decide (j = 0%N) then "id" else id_format j.

(** [s] is the name of some column of [l]. *)
Definition is_colname (l : list colinfo) (s : string) : Prop :=
  ∃ d, d ∈ l ∧ d !! "name" = Some (VStr s).

End ColumnSpecSpec.

(** ** The specification's reading of the selection filters *)

Module SelectionSpec.

(** A threshold "in [0,1]", and one "strictly less than 0 or strictly
    greater than 1", as comparisons of binary64 floats. *)
Definition in_unit_interval (t : float) : Prop :=
  (0 <=? t)%float = true ∧ (t <=? 1)%float = true.

Definition outside_unit_interval (t : float) : Prop :=
  (t <? 0)%float = true ∨ (1 <? t)%float = true.

Section spec.
Context {V : Type} `{EqDecision V}.

(** The values of a column that are not missing. *)
Definition non_missing (s : pd.Series V) : list V := omap id (pd.values s).

Definition has_missing (s : pd.Series V) : Prop := None ∈ pd.values s.

Global Instance has_missing_dec s : Decision (has_missing s).
Proof. unfold has_missing. apply _. Defined.

(** The number of distinct values of a column; the missing value is one
    of them when [count_nan_as_value], and is left out otherwise. *)
Definition distinct_count (count_nan_as_value : bool) (s : pd.Series V)
  : nat :=
  length (remove_dups (non_missing s))
  + (if count_nan_as_value && bool_decide (has_missing s) then 1 else 0).

(** The fraction of the cells of a column that are missing: their number
    over the number of rows, as the binary64 quotient. *)
Definition missing_fraction (s : pd.Series V) : float :=
  PrimFloat.div
    (pd.float_of_nat (length (pd.values s) - length (non_missing s)))
    (pd.float_of_nat (length (pd.values s))).

(** A column carries information: more than one distinct value, the
    missing one counted, and at least one value that is not missing. *)
Definition informative (s : pd.Series V) : Prop :=
  1 < distinct_count true s ∧ non_missing s ≠ [].

(** The names [find_highly_correlated_features] is asked to check:
    [features_to_check] (all columns, by default) minus
    [features_to_exclude]. *)
Definition names_to_check (feature_matrix : pd.DataFrame V)
    (features_to_check features_to_exclude : option (gset string))
  : gset string :=
  default (list_to_set (pd.columns feature_matrix)) features_to_check
  ∖ default ∅ features_to_exclude.

(** The columns it considers: those of these names whose storage dtype
    is numeric or boolean, by the list of the code. *)
Definition considered (feature_matrix : pd.DataFrame V)
    (features_to_check features_to_exclude : option (gset string))
    (c : string) (s : pd.Series V) : Prop :=
  (c, s) ∈ feature_matrix
  ∧ c ∈ names_to_check feature_matrix features_to_check features_to_exclude
  ∧ pd.dtype s ∈ Selection.numeric_and_boolean_dtypes.

(** An entry of the table of correlations: the pair of the names of two
    different columns of [f] in sorted order, with the absolute value of
    the correlation of the two columns, the earlier one first. *)
Definition pair_entry (corr : pd.Series V → pd.Series V → float)
    (f : pd.DataFrame V) (e : (string * string) * float) : Prop :=
  ∃ i j a sa b sb,
    i < j ∧ f !! i = Some (a, sa) ∧ f !! j = Some (b, sb) ∧ a ≠ b
    ∧ e = (Selection.sorted_pair a b, PrimFloat.abs (corr sa sb)).

End spec.
End SelectionSpec.

(** ** Feature matrices of the examples *)

Module SelectionExamples.
Import Selection.

Definition column (dtype : string) (values : list (option Z)) : pd.Series Z :=
  {| pd.dtype := dtype; pd.values := values |}.

(** A frame whose labels are checked to be distinct by computation. *)
Definition matrix (df : pd.DataFrame Z)
    (labels : Is_true (bool_decide (NoDup (pd.columns df))))
  : FeatureMatrix Z :=
  mkFeatureMatrix df (bool_decide_unpack _ labels).

(** A constant column and one that varies. *)
Definition constant_and_varying : FeatureMatrix Z :=
  matrix
    [ ("constant", column "int64" [Some 1; Some 1; Some 1]);
      ("varying", column "int64" [Some 1; Some 2; Some 3]) ]%Z
    I.

(** Columns with none, half and three quarters of their values missing. *)
Definition partly_missing : FeatureMatrix Z :=
  matrix
    [ ("full", column "int64" [Some 1; Some 2; Some 3; Some 4]);
      ("half", column "float64" [Some 1; None; Some 3; None]);
      ("sparse", column "float64" [None; None; Some 3; None]) ]%Z
    I.

(** Two numeric columns and one of strings (its values stand for the
    strings). *)
Definition numbers_and_text : FeatureMatrix Z :=
  matrix
    [ ("up", column "int64" [Some 1; Some 2; Some 3]);
      ("text", column "object" [Some 7; Some 8; Some 9]);
      ("down", column "float64" [Some 3; Some 2; Some 1]) ]%Z
    I.

(** Two equal columns of unsigned bytes. *)
Definition unsigned_bytes : FeatureMatrix Z :=
  matrix
    [ ("u", column "uint8" [Some 1; Some 2; Some 3]);
      ("v", column "uint8" [Some 1; Some 2; Some 3]) ]%Z
    I.

(** A matrix with two columns and no rows. *)
Definition no_rows : FeatureMatrix Z :=
  matrix
    [ ("x", column "int64" []);
      ("y", column "float64" []) ]
    I.

End SelectionExamples.

(** ** Descriptor lists of the examples *)

Module ColumnSpecExamples.
Import ColumnSpec ColumnSpecSpec.

(** One column for each of the 100000 names a generated key can take:
    "id", "id_1", ..., "id_99999". *)
Definition every_candidate : list colinfo :=
  (λ j : nat, {["name" := VStr (candidate (N.of_nat j))]})
    <$> seq 0 (N.to_nat 100000).

End ColumnSpecExamples.

(** ** Properties of [ColumnSpec] *)

Module ColumnSpecProps.
Import ColumnSpec ColumnSpecSpec.

Lemma contains_is_Some (d : colinfo) k : contains d k = true ↔ is_Some (d !! k).
Proof. unfold contains. apply bool_decide_eq_true. Qed.

Lemma contains_None (d : colinfo) k : contains d k = false ↔ d !! k = None.
Proof.
  unfold contains. rewrite bool_decide_eq_false, eq_None_not_Some. done.
Qed.

Lemma flag_contains (d : colinfo) k : flag d k = true → contains d k = true.
Proof.
  unfold flag. intros Hf. apply contains_is_Some.
  destruct (d !! k); [eauto | discriminate].
Qed.

(** For a boolean field, "set" is "equal to true". *)
Lemma is_set_bool (d : colinfo) k b :
  d !! k = Some (VBool b) → is_set d k ↔ b = true.
Proof. unfold is_set, flag. intros ->. done. Qed.

Lemma is_set_absent (d : colinfo) k : d !! k = None → ¬ is_set d k.
Proof. unfold is_set, flag. intros ->. done. Qed.

(** The loop body in terms of the four checks. *)
Lemma is_set_flag (d : colinfo) k :
  (is_set d k ∧ flag d k = true) ∨ (¬ is_set d k ∧ flag d k = false).
Proof. unfold is_set. destruct (flag d k); [left|right]; done. Qed.

Lemma validate_body_cases (d : colinfo) hk hl :
  validate_body d hk hl =
    if decide (¬ has_name_and_type d) then inl ERR_COLUMN_HAS_NO_NAME_OR_TYPE
    else if decide (is_set d "key" ∧ hk = true) then inl ERR_COLUMN_MULTI_KEY
    else if decide (is_set d "key" ∧ is_set d "label")
         then inl ERR_COLUMN_KEY_AND_LABEL
    else if decide (is_set d "label" ∧ hl = true) then inl ERR_COLUMN_MULTI_LABEL
    else inr (hk || flag d "key", hl || flag d "label").
Proof.
  unfold validate_body, has_name_and_type.
  destruct (contains d "name") eqn:Hn; simpl.
  2:{ apply contains_None in Hn. rewrite decide_True; [done|].
      intros [[? Hx] _]. congruence. }
  destruct (contains d "type") eqn:Ht; simpl.
  2:{ apply contains_None in Ht. rewrite decide_True; [done|].
      intros [_ [? Hx]]. congruence. }
  apply contains_is_Some in Hn, Ht.
  rewrite decide_False by intuition.
  destruct (is_set_flag d "key") as [[Hk Hfk]|[Hk Hfk]];
    destruct (is_set_flag d "label") as [[Hl Hfl]|[Hl Hfl]];
    rewrite Hfk, Hfl, ?(flag_contains _ _ Hfk), ?(flag_contains _ _ Hfl);
    destruct hk, hl; simpl;
    repeat (first [rewrite decide_True by done
                  |rewrite decide_False by (intros [? ?]; done)]);
    try done;
    destruct (contains d "key"), (contains d "label"); done.
Qed.

Lemma Exists_is_set_snoc k (seen : list colinfo) d :
  Exists (λ d', is_set d' k) (seen ++ [d])
  ↔ Exists (λ d', is_set d' k) seen ∨ is_set d k.
Proof. rewrite Exists_app, Exists_cons, Exists_nil. tauto. Qed.

(** The two flags of the loop say whether a key, a label, was seen. *)
Lemma validate_loop_first_violation (seen rest : list colinfo) hk hl :
  (hk = true ↔ Exists (λ d, is_set d "key") seen) →
  (hl = true ↔ Exists (λ d, is_set d "label") seen) →
  validate_loop rest hk hl = first_violation seen rest.
Proof.
  revert seen hk hl.
  induction rest as [|d rest IH]; intros seen hk hl Hk Hl; [done|].
  simpl. rewrite validate_body_cases. unfold violation.
  destruct (decide (¬ has_name_and_type d)); [done|].
  rewrite (decide_ext (is_set d "key" ∧ hk = true)
             (is_set d "key" ∧ Exists (λ d', is_set d' "key") seen))
    by (by rewrite Hk).
  destruct (decide (is_set d "key" ∧ _)); [done|].
  destruct (decide (is_set d "key" ∧ is_set d "label")); [done|].
  rewrite (decide_ext (is_set d "label" ∧ hl = true)
             (is_set d "label" ∧ Exists (λ d', is_set d' "label") seen))
    by (by rewrite Hl).
  destruct (decide (is_set d "label" ∧ _)); [done|].
  apply IH.
  - rewrite Exists_is_set_snoc, orb_true_iff, Hk. done.
  - rewrite Exists_is_set_snoc, orb_true_iff, Hl. done.
Qed.

Lemma count_set_cons k d (l : list colinfo) :
  count_set k (d :: l) = (if decide (is_set d k) then 1 else 0) + count_set k l.
Proof.
  unfold count_set. rewrite filter_cons. by destruct (decide (is_set d k)).
Qed.

Lemma count_set_app k (l1 l2 : list colinfo) :
  count_set k (l1 ++ l2) = count_set k l1 + count_set k l2.
Proof. unfold count_set. by rewrite filter_app, length_app. Qed.

Lemma count_set_pos k (l : list colinfo) :
  0 < count_set k l ↔ Exists (λ d, is_set d k) l.
Proof.
  induction l as [|d l IH].
  - rewrite Exists_nil. unfold count_set. simpl. lia.
  - rewrite count_set_cons, Exists_cons.
    destruct (decide (is_set d k)); [|rewrite <- IH; simpl]; intuition lia.
Qed.

(** No violation in [rest] after [seen]: the invariants hold of the part
    scanned so far and the part to come. *)
Lemma first_violation_OK (seen rest : list colinfo) :
  first_violation seen rest = OK ↔
    Forall has_name_and_type rest
    ∧ (count_set "key" rest + (if decide (Exists (λ d, is_set d "key") seen) then 1 else 0) ≤ 1)
    ∧ (count_set "label" rest + (if decide (Exists (λ d, is_set d "label") seen) then 1 else 0) ≤ 1)
    ∧ Forall (λ d, ¬ (is_set d "key" ∧ is_set d "label")) rest.
Proof.
  revert seen. induction rest as [|d rest IH]; intros seen.
  - simpl. split; [intros _|done].
    unfold count_set. simpl.
    split; [apply Forall_nil_2|]. split; [case_decide; lia|].
    split; [case_decide; lia|apply Forall_nil_2].
  - simpl. rewrite !Forall_cons, !count_set_cons. unfold violation.
    destruct (decide (¬ has_name_and_type d)) as [Hn|Hn].
    { split; [done|]. tauto. }
    apply dec_stable in Hn.
    destruct (decide (is_set d "key" ∧ Exists (λ d', is_set d' "key") seen))
      as [[Hk Hs]|Hmk].
    { split; [done|]. intros (_ & Hc & _).
      rewrite !decide_True in Hc by done. lia. }
    destruct (decide (is_set d "key" ∧ is_set d "label")) as [Hkl|Hkl].
    { split; [done|]. tauto. }
    destruct (decide (is_set d "label" ∧ Exists (λ d', is_set d' "label") seen))
      as [[Hl Hs]|Hml].
    { split; [done|]. intros (_ & _ & Hc & _).
      rewrite !decide_True in Hc by done. lia. }
    rewrite IH.
    assert (∀ k, (if decide (Exists (λ d', is_set d' k) (seen ++ [d])) then 1 else 0)
                 = (if decide (is_set d k) then 1 else 0)
                   + (if decide (Exists (λ d', is_set d' k) seen) then 1 else 0)
                 ∨ (is_set d k ∧ Exists (λ d', is_set d' k) seen)) as Hsn.
    { intros k. pose proof (Exists_is_set_snoc k seen d) as Hx.
      destruct (decide (is_set d k)), (decide (Exists (λ d', is_set d' k) seen));
        [by right|left..]; simpl; case_decide; tauto || lia. }
    destruct (Hsn "key") as [->|?]; [|tauto].
    destruct (Hsn "label") as [->|?]; [|tauto].
    intuition lia.
Qed.

(** C1. For every descriptor list, [validate] returns [OK] if and only if
    every descriptor has both a name and a type, at most one descriptor has
    key = true, at most one has label = true and none has both; and in
    every case [validate] returns the code of the first violation met while
    the descriptors are scanned in order, the checks of one descriptor
    being: missing name or type, second key, key and label together, second
    label ([OK] when no descriptor violates any). *)
Theorem validate_first_violation (l : list colinfo) :
  (validate (init l) = OK ↔ valid_columns l)
  ∧ validate (init l) = first_violation [] l.
Proof.
  assert (validate (init l) = first_violation [] l) as Heq.
  { unfold validate. simpl. apply validate_loop_first_violation;
      rewrite Exists_nil; done. }
  split; [|done].
  rewrite Heq, first_violation_OK. unfold valid_columns.
  rewrite !decide_False by (rewrite Exists_nil; tauto).
  rewrite !Nat.add_0_r. tauto.
Qed.

(** *** [get_usecols] *)

Lemma py_eq_VStr_l s v : py_eq (VStr s) v = true ↔ v = VStr s.
Proof.
  destruct v; simpl; try (split; [discriminate|congruence]).
  rewrite String.eqb_eq. split; congruence.
Qed.

Lemma py_eq_VStr_r s v : py_eq v (VStr s) = true ↔ v = VStr s.
Proof.
  destruct v; simpl; try (split; [discriminate|congruence]).
  rewrite String.eqb_eq. split; congruence.
Qed.

Lemma _is_numeric_type_spec ty :
  _is_numeric_type ty = true ↔ ty = VStr "number" ∨ ty = VStr "bool".
Proof.
  unfold _is_numeric_type, py_in. simpl.
  rewrite orb_false_r, orb_true_iff, !py_eq_VStr_r. done.
Qed.

Lemma getitem_Some (d : colinfo) k v : d !! k = Some v → getitem d k = Ok v.
Proof. unfold getitem. by intros ->. Qed.

Lemma getitem_name (d : colinfo) :
  is_Some (d !! "name") → getitem d "name" = Ok (name_of d).
Proof. intros [v Hv]. unfold name_of. rewrite Hv. by apply getitem_Some. Qed.

(** The three guards skip a descriptor exactly when it fails a filter. *)
Lemma usecols_skip_passes n lo ex (d : colinfo) :
  is_Some (d !! "type") →
  usecols_skip n lo ex d = Ok (negb (bool_decide (passes n lo ex d))).
Proof.
  intros [ty Hty].
  assert (_is_numeric_type ty = true ↔
          (d !! "type" = Some (VStr "number") ∨ d !! "type" = Some (VStr "bool")))
    as Hnum.
  { rewrite _is_numeric_type_spec, Hty.
    split; (intros [?|?]; [left|right]; congruence). }
  unfold usecols_skip. rewrite (getitem_Some _ _ _ Hty).
  destruct (is_set_flag d "label") as [[Hl Hfl]|[Hl Hfl]];
    destruct (is_set_flag d "train") as [[Ht Hft]|[Ht Hft]];
    destruct (is_set_flag d "bypass") as [[Hp Hfp]|[Hp Hfp]];
    rewrite Hfl, Hft, Hfp;
    destruct (_is_numeric_type ty) eqn:Hty';
    destruct n, lo, ex; simpl; rewrite ?Hty'; simpl; f_equal; symmetry;
    first [ apply negb_false_iff, bool_decide_eq_true; unfold passes;
            intuition congruence
          | apply negb_true_iff, bool_decide_eq_false; unfold passes;
            intuition congruence ].
Qed.

Lemma get_usecols_loop_spec n lo ex (l : list colinfo) acc :
  Forall has_name_and_type l →
  get_usecols_loop n lo ex l acc
  = Ok (acc ++ (name_of <$> filter (passes n lo ex) l)).
Proof.
  intros Hl. revert acc.
  induction Hl as [|d l [Hn Ht] _ IH]; intros acc; simpl.
  { by rewrite app_nil_r. }
  rewrite usecols_skip_passes by done. simpl.
  rewrite filter_cons. destruct (decide (passes n lo ex d)) as [Hp|Hp].
  - rewrite bool_decide_eq_true_2 by done. simpl.
    rewrite getitem_name by done. simpl.
    rewrite IH, <- app_assoc. done.
  - rewrite bool_decide_eq_false_2 by done. simpl. apply IH.
Qed.

(** C2, as stated, fails: a descriptor without a name that survives the
    filters has no name to return, and [numeric_only] reads the type of
    every descriptor; both raise [KeyError]. *)
Lemma get_usecols_missing_field :
  get_usecols (init [ {["type" := VStr "number"]} ]) false false false
    = Raise (KeyError "name")
  ∧ get_usecols (init [ {["name" := VStr "a"]} ]) true false false
    = Raise (KeyError "type")
  ∧ ¬ returns (get_usecols (init [ {["type" := VStr "number"]} ])
                 false false false).
Proof.
  split; [|split]; [vm_compute; reflexivity..|].
  intros [names Hn]. vm_compute in Hn. discriminate.
Qed.

(** C2 (amended). For every descriptor list in which every descriptor has a
    name and a type, and every combination of the three flags,
    [get_usecols] returns exactly the names of the descriptors, in input
    order, that satisfy every active filter: under [numeric_only] the type
    is "number" or "bool"; under [label_only] the descriptor has
    label = true; under [exclude_skip] it has none of label, train, bypass
    true. *)
Theorem get_usecols_filter (l : list colinfo) (numeric_only label_only exclude_skip : bool) :
  Forall has_name_and_type l →
  get_usecols (init l) numeric_only label_only exclude_skip
  = Ok (name_of <$> filter (passes numeric_only label_only exclude_skip) l).
Proof.
  intros Hl. unfold get_usecols. simpl.
  by rewrite get_usecols_loop_spec.
Qed.

(** The example of the specification: columns a (number), b (string) and
    c (bool) under [numeric_only]. *)
Lemma get_usecols_filter_witness :
  let l : list colinfo :=
    [ {["name" := VStr "a"; "type" := VStr "number"]};
      {["name" := VStr "b"; "type" := VStr "string"]};
      {["name" := VStr "c"; "type" := VStr "bool"]} ] in
  Forall has_name_and_type l
  ∧ get_usecols (init l) true false false = Ok [VStr "a"; VStr "c"].
Proof.
  intros l.
  assert (Forall has_name_and_type l) as Hl.
  { repeat constructor; vm_compute; eauto. }
  split; [exact Hl|].
  rewrite (get_usecols_filter l true false false Hl).
  vm_compute. reflexivity.
Defined.

(** *** [get_key_colname] and [is_auto_keyname] *)

Lemma auto_keyname_fuel : N.of_nat (N.to_nat auto_keyname_bound) = 99999%N.
Proof. unfold auto_keyname_bound. lia. Qed.

(** The bound stays folded in what follows: no proof below runs the loop. *)
Local Opaque auto_keyname_bound.

Lemma get_colnames_loop_spec (l : list colinfo) acc :
  Forall (λ d, is_Some (d !! "name")) l →
  get_colnames_loop l acc = Ok (acc ++ (name_of <$> l)).
Proof.
  intros Hl. revert acc.
  induction Hl as [|d l Hn _ IH]; intros acc; simpl.
  { by rewrite app_nil_r. }
  rewrite getitem_name by done. simpl. rewrite IH, <- app_assoc. done.
Qed.

Lemma py_in_colnames (l : list colinfo) s :
  py_in (VStr s) (name_of <$> l) = true ↔ is_colname l s.
Proof.
  unfold py_in, is_colname. rewrite existsb_exists. split.
  - intros (v & Hin & Heq). apply py_eq_VStr_l in Heq. subst v.
    apply list_elem_of_In, list_elem_of_fmap in Hin as (d & Hd & Hin).
    exists d. split; [done|]. unfold name_of in Hd.
    destruct (d !! "name"); simpl in Hd; congruence.
  - intros (d & Hin & Hd). exists (VStr s). split.
    + apply list_elem_of_In, list_elem_of_fmap. exists d. split; [|done].
      unfold name_of. by rewrite Hd.
    + by apply py_eq_VStr_l.
Qed.

Lemma first_flagged_None k (l : list colinfo) :
  Forall (λ d, ¬ is_set d k) l → first_flagged k l = Ok None.
Proof.
  induction 1 as [|d l Hd _ IH]; simpl; [done|].
  destruct (is_set_flag d k) as [[? _]|[_ ->]]; done.
Qed.

Lemma first_flagged_Some k (l1 l2 : list colinfo) d :
  Forall (λ d', ¬ is_set d' k) l1 → is_set d k → is_Some (d !! "name") →
  first_flagged k (l1 ++ d :: l2) = Ok (Some (name_of d)).
Proof.
  intros Hl1 Hd Hn. induction Hl1 as [|d' l1 Hd' _ IH]; simpl.
  - unfold is_set in Hd. rewrite Hd, getitem_name by done. done.
  - destruct (is_set_flag d' k) as [[? _]|[_ ->]]; done.
Qed.

(** What [first_flagged] returns decides whether a flag is set somewhere. *)
Lemma first_flagged_inv k (l : list colinfo) r :
  first_flagged k l = Ok r →
  (r = None ↔ Forall (λ d, ¬ is_set d k) l).
Proof.
  revert r. induction l as [|d l IH]; simpl; intros r Hr.
  { split; [constructor|congruence]. }
  rewrite Forall_cons.
  destruct (is_set_flag d k) as [[Hs Hf]|[Hs Hf]]; rewrite Hf in Hr.
  - destruct (getitem d "name"); simpl in Hr; [|discriminate].
    split; [congruence|tauto].
  - rewrite (IH r Hr). tauto.
Qed.

(** The search loop stops at the first index whose candidate is unused. *)
Lemma auto_keyname_loop_first n i j colnames keyname :
  (i ≤ j)%N → (j < i + N.of_nat n)%N →
  py_in (VStr (id_format j)) colnames = false →
  (∀ k, (i ≤ k)%N → (k < j)%N → py_in (VStr (id_format k)) colnames = true) →
  auto_keyname_loop n i colnames keyname = Some (id_format j).
Proof.
  revert i keyname. induction n as [|n IH]; intros i keyname Hij Hjn Hj Hlt.
  { lia. }
  simpl. destruct (decide (i = j)) as [->|Hne].
  - by rewrite Hj.
  - rewrite Hlt by lia. simpl. apply IH; [lia..|done|].
    intros k ??. apply Hlt; lia.
Qed.

(** Whatever the columns, the loop leaves [keyname] bound to one of its
    candidates after at least one iteration. *)
Lemma auto_keyname_loop_bound n i colnames keyname :
  n ≠ 0 →
  ∃ k, auto_keyname_loop n i colnames keyname = Some (id_format k).
Proof.
  revert i keyname. induction n as [|n IH]; intros i keyname Hn; [done|].
  simpl. destruct (negb _); [eauto|].
  destruct n as [|n]; [simpl; eauto|]. by apply IH.
Qed.

Lemma id_format_truthy k : truthy (VStr (id_format k)) = true.
Proof. done. Qed.

Lemma candidate_pos j : j ≠ 0%N → candidate j = id_format j.
Proof. unfold candidate. intros ?. by rewrite decide_False. Qed.

(** On a fresh instance with names everywhere, [_setup_auto_keyname]
    memoises the first unused candidate. *)
Lemma _setup_auto_keyname_first (l : list colinfo) j :
  Forall (λ d, is_Some (d !! "name")) l →
  (j ≤ auto_keyname_bound)%N →
  ¬ is_colname l (candidate j) →
  (∀ i, (i < j)%N → is_colname l (candidate i)) →
  _setup_auto_keyname (init l)
  = Ok {| columns := l; _auto_keyname := Some (candidate j) |}.
Proof.
  intros Hl Hj Hfree Hused. unfold _setup_auto_keyname, get_colnames. simpl.
  rewrite get_colnames_loop_spec by done. simpl.
  destruct (decide (j = 0%N)) as [->|Hj0].
  - assert (py_in (VStr "id") (name_of <$> l) = false) as ->; [|done].
    apply not_true_is_false. rewrite py_in_colnames. exact Hfree.
  - assert (py_in (VStr "id") (name_of <$> l) = true) as ->.
    { apply py_in_colnames. apply (Hused 0%N). lia. }
    simpl. rewrite (auto_keyname_loop_first _ _ j).
    + simpl. by rewrite candidate_pos.
    + lia.
    + rewrite auto_keyname_fuel. revert Hj. clear.
      intros Hj. assert (auto_keyname_bound = 99999%N) as Hb by done.
      lia.
    + apply not_true_is_false. rewrite py_in_colnames.
      by rewrite <- candidate_pos.
    + intros k ??. apply py_in_colnames. rewrite <- candidate_pos by lia.
      by apply Hused.
Qed.

(** A second call returns what the first one returned, and leaves the
    instance as the first one left it. *)
Lemma get_key_colname_again (self self' : t) v :
  get_key_colname self = Ok (v, self') →
  get_key_colname self' = Ok (v, self').
Proof.
  unfold get_key_colname. intros Hcall.
  destruct (first_flagged "key" (columns self)) as [[name|]|] eqn:Hff;
    simpl in Hcall; [| |discriminate].
  - injection Hcall as <- <-. rewrite Hff. done.
  - unfold _setup_auto_keyname in Hcall.
    destruct (from_option (λ s, truthy (VStr s)) false (_auto_keyname self))
      eqn:Hmemo.
    + simpl in Hcall. injection Hcall as <- <-. rewrite Hff. simpl.
      unfold _setup_auto_keyname. rewrite Hmemo. done.
    + destruct (get_colnames self) as [colnames|]; simpl in Hcall;
        [|discriminate].
      assert (∃ keyname, truthy (VStr keyname) = true ∧
                v = VStr keyname ∧
                self' = {| columns := columns self;
                           _auto_keyname := Some keyname |})
        as (keyname & Htrue & -> & ->).
      { destruct (negb (py_in (VStr "id") colnames)); simpl in Hcall.
        - exists "id". split; [done|]. by injection Hcall as <- <-.
        - destruct (auto_keyname_loop_bound (N.to_nat auto_keyname_bound) 1
                      colnames None) as [k Hk].
          { pose proof auto_keyname_fuel. lia. }
          rewrite Hk in Hcall. simpl in Hcall. exists (id_format k).
          split; [done|]. by injection Hcall as <- <-. }
      simpl. rewrite Hff. simpl. unfold _setup_auto_keyname. simpl.
      simpl in Htrue. rewrite Htrue. done.
Qed.

Lemma Forall_has_name (l : list colinfo) :
  Forall has_name_and_type l → Forall (λ d, is_Some (d !! "name")) l.
Proof. intros Hl. eapply Forall_impl; [exact Hl|]. by intros d [? _]. Qed.

(** C3, as stated, fails: with a descriptor that has no name the call
    raises [KeyError], whether the name asked for is that of the key
    descriptor or a generated one ("id" is no column name below). *)
Lemma get_key_colname_missing_name :
  get_key_colname (init [ {["type" := VStr "number"]} ])
    = Raise (KeyError "name")
  ∧ ¬ is_colname [ {["type" := VStr "number"]} ] (candidate 0)
  ∧ get_key_colname (init [ {["key" := VBool true]} ])
    = Raise (KeyError "name").
Proof.
  split; [vm_compute; reflexivity|]. split; [|vm_compute; reflexivity].
  intros (d & Hin & Hd). apply list_elem_of_singleton in Hin. subst d.
  vm_compute in Hd. discriminate.
Qed.

(** C3 (amended). For every descriptor list in which every descriptor
    has a name: if some descriptor has key = true, [get_key_colname]
    returns the name of the first such descriptor; otherwise, provided a
    candidate among "id", "id_1", ..., "id_99999" is not an existing column
    name, it returns the first unused candidate in that order; and a second
    call on the same instance returns the value of the first. *)
Theorem get_key_colname_spec (l : list colinfo) :
  Forall (λ d, is_Some (d !! "name")) l →
  (∀ l1 d l2, l = l1 ++ d :: l2 →
     Forall (λ d', ¬ is_set d' "key") l1 → is_set d "key" →
     get_key_colname (init l) = Ok (name_of d, init l))
  ∧ (Forall (λ d, ¬ is_set d "key") l →
     ∀ j, (j ≤ 99999)%N →
       ¬ is_colname l (candidate j) →
       (∀ i, (i < j)%N → is_colname l (candidate i)) →
       ∃ self', get_key_colname (init l) = Ok (VStr (candidate j), self'))
  ∧ (∀ v self', get_key_colname (init l) = Ok (v, self') →
       get_key_colname self' = Ok (v, self')).
Proof.
  intros Hl. split; [|split].
  - intros l1 d l2 -> Hl1 Hd. unfold get_key_colname. simpl.
    rewrite first_flagged_Some; [done..|].
    apply Forall_app in Hl as [_ Hl]. by apply Forall_cons in Hl as [? _].
  - intros Hnokey j Hj Hfree Hused. unfold get_key_colname. simpl.
    rewrite first_flagged_None by done. simpl.
    rewrite (_setup_auto_keyname_first l j); [simpl; eauto|done| |done..].
    by assert (auto_keyname_bound = 99999%N) as -> by done.
  - intros v self'. apply get_key_colname_again.
Qed.

(** The example of the specification: no key descriptor and a column
    "id"; the key name is "id_1". *)
Lemma get_key_colname_spec_witness :
  let l : list colinfo := [ {["name" := VStr "id"; "type" := VStr "number"]} ] in
  Forall (λ d, is_Some (d !! "name")) l
  ∧ ∃ self', get_key_colname (init l) = Ok (VStr "id_1", self').
Proof.
  intros l.
  assert (Forall (λ d : colinfo, is_Some (d !! "name")) l) as Hl.
  { repeat constructor. vm_compute. eauto. }
  split; [exact Hl|].
  destruct (get_key_colname_spec l Hl) as (_ & Hauto & _).
  apply (Hauto ltac:(repeat constructor; vm_compute; discriminate) 1%N).
  - vm_compute. discriminate.
  - intros (d & Hin & Hd). apply list_elem_of_singleton in Hin. subst d.
    vm_compute in Hd. discriminate.
  - intros i Hi. assert (i = 0%N) as -> by (clear -Hi; lia).
    exists {["name" := VStr "id"; "type" := VStr "number"]}.
    split; [apply list_elem_of_singleton; reflexivity|].
    vm_compute. reflexivity.
Defined.

(** C4, as stated, fails: on a newly built instance [is_auto_keyname] is
    false although no descriptor declares a key. *)
Lemma is_auto_keyname_fresh_false :
  ¬ (is_auto_keyname (init []) = true
     ↔ Forall (λ d : colinfo, ¬ is_set d "key") []).
Proof. intros [_ H]. specialize (H (Forall_nil_2 _)). discriminate. Qed.

(** C4 (amended). On a newly built instance [is_auto_keyname] returns
    false; once [get_key_colname] has returned on it, [is_auto_keyname]
    returns true if and only if no descriptor declares key = true. *)
Theorem is_auto_keyname_after_get_key_colname (l : list colinfo) v self' :
  get_key_colname (init l) = Ok (v, self') →
  is_auto_keyname (init l) = false
  ∧ (is_auto_keyname self' = true ↔ Forall (λ d, ¬ is_set d "key") l).
Proof.
  intros Hcall. split; [done|].
  unfold get_key_colname in Hcall. simpl in Hcall.
  destruct (first_flagged "key" l) as [found|] eqn:Hff; [|discriminate].
  pose proof (first_flagged_inv _ _ _ Hff) as Hinv.
  destruct found as [name|]; simpl in Hcall.
  - injection Hcall as <- <-. split; [done|].
    intros Hall. apply Hinv in Hall. discriminate.
  - split; [intros _; by apply Hinv|intros _].
    unfold _setup_auto_keyname, get_colnames in Hcall. simpl in Hcall.
    destruct (get_colnames_loop l []) as [colnames|]; [|discriminate].
    simpl in Hcall.
    destruct (negb (py_in (VStr "id") colnames)); simpl in Hcall.
    { by injection Hcall as <- <-. }
    destruct (auto_keyname_loop_bound (N.to_nat auto_keyname_bound) 1
                colnames None) as [k Hk].
    { pose proof auto_keyname_fuel. lia. }
    rewrite Hk in Hcall. simpl in Hcall. by injection Hcall as <- <-.
Qed.

Lemma is_auto_keyname_after_get_key_colname_witness :
  let l : list colinfo := [ {["name" := VStr "id"; "type" := VStr "number"]} ] in
  let self' := {| columns := l; _auto_keyname := Some "id_1" |} in
  get_key_colname (init l) = Ok (VStr "id_1", self')
  ∧ is_auto_keyname (init l) = false
  ∧ (is_auto_keyname self' = true ↔ Forall (λ d, ¬ is_set d "key") l).
Proof.
  intros l self'.
  assert (get_key_colname (init l) = Ok (VStr "id_1", self')) as Hcall.
  { vm_compute. reflexivity. }
  split; [exact Hcall|].
  exact (is_auto_keyname_after_get_key_colname l _ _ Hcall).
Defined.

(** *** Totality after [validate] *)

Lemma returns_Ok {A} (a : A) : returns (Ok a).
Proof. by exists a. Qed.

Lemma first_flagged_returns k (l : list colinfo) :
  Forall (λ d, is_Some (d !! "name")) l → returns (first_flagged k l).
Proof.
  induction 1 as [|d l Hn _ IH]; simpl; [apply returns_Ok|].
  destruct (flag d k); [|done].
  rewrite getitem_name by done. apply returns_Ok.
Qed.

Lemma get_dtypes_loop_returns (l : list colinfo) acc :
  Forall has_name_and_type l → returns (get_dtypes_loop l acc).
Proof.
  intros Hl. revert acc.
  induction Hl as [|d l [Hn [ty Ht]] _ IH]; intros acc; simpl.
  { apply returns_Ok. }
  rewrite (getitem_Some _ _ _ Ht). simpl.
  destruct (_get_dtype_from_strtype ty); [|done].
  rewrite getitem_name by done. simpl. done.
Qed.

Lemma get_converters_loop_returns (l : list colinfo) acc :
  Forall has_name_and_type l → returns (get_converters_loop l acc).
Proof.
  intros Hl. revert acc.
  induction Hl as [|d l [Hn [ty Ht]] _ IH]; intros acc; simpl.
  { apply returns_Ok. }
  rewrite (getitem_Some _ _ _ Ht). simpl.
  destruct (_get_converter_from_strtype ty); [|done].
  rewrite getitem_name by done. simpl. done.
Qed.

Lemma get_bypass_colnames_loop_returns (l : list colinfo) acc :
  Forall has_name_and_type l → returns (get_bypass_colnames_loop l acc).
Proof.
  intros Hl. revert acc.
  induction Hl as [|d l [Hn _] _ IH]; intros acc; simpl.
  { apply returns_Ok. }
  destruct (flag d "bypass"); [|done].
  rewrite getitem_name by done. simpl. done.
Qed.

Lemma get_is_numerics_loop_returns (l : list colinfo) acc :
  Forall has_name_and_type l → returns (get_is_numerics_loop l acc).
Proof.
  intros Hl. revert acc.
  induction Hl as [|d l [_ [ty Ht]] _ IH]; intros acc; simpl.
  { apply returns_Ok. }
  destruct (flag d "label" || flag d "bypass"); [done|].
  rewrite (getitem_Some _ _ _ Ht). simpl. done.
Qed.

Lemma _setup_auto_keyname_returns (self : t) :
  Forall (λ d, is_Some (d !! "name")) (columns self) →
  returns (_setup_auto_keyname self).
Proof.
  intros Hl. unfold _setup_auto_keyname.
  destruct (from_option _ _ _); [apply returns_Ok|].
  unfold get_colnames. rewrite get_colnames_loop_spec by done. simpl.
  destruct (negb _); simpl; [apply returns_Ok|].
  destruct (auto_keyname_loop_bound (N.to_nat auto_keyname_bound) 1
              (name_of <$> columns self) None) as [k Hk].
  { pose proof auto_keyname_fuel. lia. }
  rewrite Hk. simpl. apply returns_Ok.
Qed.

(** [validate] accepts exactly the lists that keep the four invariants. *)
Lemma validate_OK_valid_columns (l : list colinfo) :
  validate (init l) = OK ↔ valid_columns l.
Proof.
  unfold validate. simpl.
  rewrite (validate_loop_first_violation [] l false false)
    by (rewrite Exists_nil; done).
  rewrite first_violation_OK. unfold valid_columns.
  rewrite !decide_False by (rewrite Exists_nil; tauto).
  rewrite !Nat.add_0_r. tauto.
Qed.

(** C10. For every descriptor list on which [validate] returns [OK], every
    other query returns: no access to a descriptor's name or type raises
    and no other error branch is reached. *)
Theorem validate_OK_queries_return (self : t) :
  validate self = OK →
  returns (get_colnames self)
  ∧ (∀ numeric_only label_only exclude_skip,
       returns (get_usecols self numeric_only label_only exclude_skip))
  ∧ returns (get_dtypes self)
  ∧ returns (get_converters self)
  ∧ returns (get_key_colname self)
  ∧ returns (get_label_colname self)
  ∧ returns (get_train_colname self)
  ∧ returns (get_bypass_colnames self)
  ∧ returns (get_is_numerics self).
Proof.
  intros Hv.
  assert (Forall has_name_and_type (columns self)) as Hl.
  { by apply (validate_OK_valid_columns (columns self)) in Hv as [? _]. }
  pose proof (Forall_has_name _ Hl) as Hn.
  repeat split.
  - unfold get_colnames. rewrite get_colnames_loop_spec by done.
    apply returns_Ok.
  - intros n lo ex. unfold get_usecols.
    rewrite get_usecols_loop_spec by done. apply returns_Ok.
  - by apply get_dtypes_loop_returns.
  - by apply get_converters_loop_returns.
  - unfold get_key_colname.
    destruct (first_flagged_returns "key" _ Hn) as [[name|] ->]; simpl.
    + apply returns_Ok.
    + destruct (_setup_auto_keyname_returns self Hn) as [self' ->].
      apply returns_Ok.
  - unfold get_label_colname.
    destruct (first_flagged_returns "label" _ Hn) as [found ->].
    apply returns_Ok.
  - unfold get_train_colname.
    destruct (first_flagged_returns "train" _ Hn) as [found ->].
    apply returns_Ok.
  - by apply get_bypass_colnames_loop_returns.
  - by apply get_is_numerics_loop_returns.
Qed.

Lemma validate_OK_queries_return_witness :
  let self := init [ {["name" := VStr "a"; "type" := VStr "number"]};
                     {["name" := VStr "b"; "type" := VStr "bool";
                       "label" := VBool true]} ] in
  validate self = OK ∧ returns (get_dtypes self) ∧ returns (get_key_colname self).
Proof.
  intros self.
  assert (validate self = OK) as Hv by (vm_compute; reflexivity).
  split; [exact Hv|].
  destruct (validate_OK_queries_return self Hv)
    as (_ & _ & Hd & _ & Hk & _).
  split; [exact Hd|exact Hk].
Defined.

End ColumnSpecProps.

(** ** Properties of the selection filters *)

Module SelectionProps.
Import Selection SelectionSpec.

(** *** Comparisons of floats *)

Lemma SFcompare_antisym x y :
  SFcompare y x = CompOpp <$> SFcompare x y.
Proof.
  destruct x as [sx|sx| |sx mx ex], y as [sy|sy| |sy my ey]; simpl;
    try reflexivity; try (by destruct sx); try (by destruct sy);
    try (by destruct sx, sy).
  destruct sx, sy; simpl; try reflexivity; f_equal;
    rewrite (Z.compare_antisym ex ey);
    destruct (ex ?= ey)%Z; simpl; try reflexivity;
    rewrite !Pos.compare_cont_antisym; reflexivity.
Qed.

Lemma float_leb_not_gt (x y : float) :
  (x <=? y)%float = true → (y <? x)%float = false.
Proof.
  rewrite FloatAxioms.leb_spec, FloatAxioms.ltb_spec. unfold SFleb, SFltb.
  rewrite (SFcompare_antisym (Prim2SF x) (Prim2SF y)).
  by destruct (SFcompare (Prim2SF x) (Prim2SF y)) as [[]|].
Qed.

Lemma float_eqb_not_lt (x y : float) :
  (x =? y)%float = true → (y <? x)%float = false.
Proof.
  rewrite FloatAxioms.eqb_spec, FloatAxioms.ltb_spec. unfold SFeqb, SFltb.
  rewrite (SFcompare_antisym (Prim2SF x) (Prim2SF y)).
  by destruct (SFcompare (Prim2SF x) (Prim2SF y)) as [[]|].
Qed.

Lemma float_ltb_irrefl (x : float) : (x <? x)%float = false.
Proof.
  rewrite FloatAxioms.ltb_spec. unfold SFltb.
  pose proof (SFcompare_antisym (Prim2SF x) (Prim2SF x)) as Hx.
  destruct (SFcompare (Prim2SF x) (Prim2SF x)) as [[]|]; done.
Qed.

(** A threshold in [0,1] passes the check of the two filters. *)
Lemma in_unit_interval_check (t : float) :
  in_unit_interval t → (t <? 0)%float || (1 <? t)%float = false.
Proof.
  intros [H0 H1]. by rewrite (float_leb_not_gt _ _ H0), (float_leb_not_gt _ _ H1).
Qed.

Lemma outside_unit_interval_check (t : float) :
  outside_unit_interval t ↔ (t <? 0)%float || (1 <? t)%float = true.
Proof. unfold outside_unit_interval. by rewrite orb_true_iff. Qed.

(** *** The model of pandas *)

Section frames.
Context {V : Type} `{EqDecision V}.
Implicit Types (df : pd.DataFrame V) (s : pd.Series V) (c : string).

Lemma getitem_elem df c s :
  NoDup (pd.columns df) → (c, s) ∈ df → pd.getitem df c = Ok s.
Proof.
  unfold pd.getitem, pd.columns.
  induction df as [|[c' s'] df IH]; intros Hnd Hin.
  { by apply elem_of_nil in Hin. }
  rewrite fmap_cons in Hnd. apply NoDup_cons in Hnd as [Hc' Hnd].
  simpl. destruct (String.eqb c' c) eqn:Heq.
  - apply String.eqb_eq in Heq. subst c'.
    apply elem_of_cons in Hin as [Hin|Hin]; [by injection Hin as ->|].
    destruct Hc'. apply list_elem_of_fmap. by exists (c, s).
  - apply String.eqb_neq in Heq.
    apply elem_of_cons in Hin as [Hin|Hin]; [congruence|]. by apply IH.
Qed.

Lemma getitem_list_sub df (sub : pd.DataFrame V) :
  NoDup (pd.columns df) → sub ⊆ df →
  pd.getitem_list df (pd.columns sub) = Ok sub.
Proof.
  intros Hnd. induction sub as [|[c s] sub IH]; intros Hsub; [done|].
  simpl. rewrite (getitem_elem df c s) by set_solver. simpl.
  rewrite IH by set_solver. done.
Qed.

Lemma keep_loop_sub df (sub : pd.DataFrame V) :
  NoDup (pd.columns df) → sub ⊆ df →
  keep_loop df (pd.columns sub)
  = Ok (pd.columns (filter (λ kv, keep_column kv.2 = true) sub)).
Proof.
  intros Hnd. induction sub as [|[c s] sub IH]; intros Hsub; [done|].
  rewrite filter_cons. simpl.
  rewrite (getitem_elem df c s) by set_solver. simpl.
  rewrite IH by set_solver. simpl.
  destruct (keep_column s); by case_decide.
Qed.

Lemma columns_filter_NoDup df (P : string * pd.Series V → Prop)
    `{∀ kv, Decision (P kv)} :
  NoDup (pd.columns df) → NoDup (pd.columns (filter P df)).
Proof.
  unfold pd.columns. intros Hnd.
  eapply sublist_NoDup; [exact Hnd|].
  apply fmap_sublist, sublist_filter.
Qed.

(** A dictionary built from entries with distinct keys lists them as they
    came. *)
Lemma dict_set_fresh {A} (d : list (string * A)) k v :
  k ∉ d.*1 → dict_set String.eqb d k v = d ++ [(k, v)].
Proof.
  induction d as [|[k' v'] d IH]; intros Hk; [done|]. simpl.
  rewrite fmap_cons, not_elem_of_cons in Hk. destruct Hk as [Hne Hk].
  simpl in Hne. destruct (String.eqb k' k) eqn:Heq.
  - apply String.eqb_eq in Heq. congruence.
  - by rewrite IH.
Qed.

Lemma to_dict_NoDup {A} (entries : list (string * A)) :
  NoDup entries.*1 → pd.to_dict entries = entries.
Proof.
  unfold pd.to_dict.
  assert (∀ acc, NoDup (acc ++ entries).*1 →
            foldl (λ d kv, dict_set String.eqb d kv.1 kv.2) acc entries
            = acc ++ entries) as Hgen.
  { induction entries as [|[k v] entries IH]; intros acc Hnd; simpl.
    { by rewrite app_nil_r. }
    rewrite dict_set_fresh.
    - rewrite IH; rewrite <- app_assoc; done.
    - rewrite fmap_app, fmap_cons in Hnd.
      apply NoDup_app in Hnd as (_ & Hnd & _).
      intros Hin. apply (Hnd _ Hin). simpl. apply elem_of_cons. by left. }
  intros Hnd. by rewrite (Hgen []).
Qed.

Lemma entries_keys {A} df (f : pd.Series V → A) :
  (map (λ kv, (kv.1, f kv.2)) df).*1 = pd.columns df.
Proof.
  unfold pd.columns. induction df as [|[c s] df IH]; [done|].
  simpl. f_equal. exact IH.
Qed.

Lemma to_dict_columns {A} df (f : pd.Series V → A) :
  NoDup (pd.columns df) →
  pd.to_dict (map (λ kv, (kv.1, f kv.2)) df) = map (λ kv, (kv.1, f kv.2)) df.
Proof. intros Hnd. apply to_dict_NoDup. by rewrite entries_keys. Qed.

(** Selecting the entries of a per-column result is selecting columns. *)
Lemma filter_entries_columns {A} df (f : pd.Series V → A) (P : A → Prop)
    `{∀ a, Decision (P a)} :
  map fst (filter (λ kv, P kv.2) (map (λ kv, (kv.1, f kv.2)) df))
  = pd.columns (filter (λ kv, P (f kv.2)) df).
Proof.
  unfold pd.columns. induction df as [|[c s] df IH]; [done|].
  simpl. rewrite !filter_cons. simpl.
  destruct (decide (P (f s))); simpl; by rewrite IH.
Qed.

(** *** Counting values *)

Lemma elem_of_non_missing s v : v ∈ non_missing s ↔ Some v ∈ pd.values s.
Proof.
  unfold non_missing. rewrite list_elem_of_omap. split.
  - intros (x & Hin & Hx). simpl in Hx. by subst x.
  - intros Hin. by exists (Some v).
Qed.

Lemma dropna_non_missing s : pd.dropna s = Some <$> non_missing s.
Proof.
  unfold pd.dropna, non_missing.
  induction (pd.values s) as [|[v|] l IH]; simpl; [done|..].
  - rewrite filter_cons_True by done. by rewrite IH.
  - rewrite filter_cons_False; [done|]. by intros [? ?].
Qed.

Lemma remove_dups_fmap_Some (l : list V) :
  remove_dups (Some <$> l) = Some <$> remove_dups l.
Proof.
  induction l as [|v l IH]; [done|].
  assert (Some v ∈ Some <$> l ↔ v ∈ l) as Hiff.
  { rewrite list_elem_of_fmap. split.
    - intros (v' & Hv' & Hin). by simplify_eq.
    - intros Hin. by exists v. }
  rewrite fmap_cons. cbn [remove_dups].
  destruct (decide_rel elem_of (Some v) (Some <$> l));
    destruct (decide_rel elem_of v l); try tauto.
  by rewrite fmap_cons, IH.
Qed.

Lemma remove_dups_options (l : list (option V)) :
  length (remove_dups l)
  = length (remove_dups (omap id l))
    + (if bool_decide (None ∈ l) then 1 else 0).
Proof.
  induction l as [|[v|] l IH]; [done|..].
  - assert (Some v ∈ l ↔ v ∈ omap id l) as Hiff.
    { rewrite list_elem_of_omap. split.
      - intros Hin. by exists (Some v).
      - intros (x & Hin & Hx). simpl in Hx. by subst x. }
    assert (bool_decide (None ∈ Some v :: l) = bool_decide (None ∈ l)) as ->.
    { apply bool_decide_ext. rewrite elem_of_cons.
      split; [intros [?|?]; [done|done]|by right]. }
    change (omap id (Some v :: l)) with (v :: omap id l).
    cbn [remove_dups].
    destruct (decide_rel elem_of (Some v) l);
      destruct (decide_rel elem_of v (omap id l)); try tauto;
      simpl; rewrite IH; lia.
  - rewrite (bool_decide_eq_true_2 (None ∈ None :: l))
      by apply list_elem_of_here.
    change (omap id (None :: l)) with (omap id l).
    cbn [remove_dups].
    destruct (decide_rel elem_of None l) as [Hin|Hin].
    + rewrite IH, bool_decide_eq_true_2 by done. done.
    + simpl. rewrite IH, bool_decide_eq_false_2 by done. lia.
Qed.

(** The library's count of distinct values is the specification's. *)
Lemma nunique_distinct_count (count_nan_as_value : bool) s :
  pd.nunique (negb count_nan_as_value) s
  = distinct_count count_nan_as_value s.
Proof.
  unfold pd.nunique, distinct_count. destruct count_nan_as_value; simpl.
  - by rewrite remove_dups_options.
  - rewrite dropna_non_missing, remove_dups_fmap_Some, length_fmap. lia.
Qed.

Lemma keep_column_informative s : keep_column s = true ↔ informative s.
Proof.
  unfold keep_column, informative.
  rewrite andb_true_iff, !Nat.ltb_lt.
  rewrite (nunique_distinct_count true), dropna_non_missing, length_fmap.
  destruct (non_missing s); simpl; [|split; intros [? _]; split; [done|done|done|lia]].
  split; intros [? ?]; [lia|done].
Qed.

Lemma null_count_missing s :
  pd.null_count s = length (pd.values s) - length (non_missing s).
Proof.
  unfold pd.null_count, non_missing.
  induction (pd.values s) as [|[v|] l IH]; [done|..].
  - rewrite filter_cons_False by done. rewrite IH.
    change (omap id (Some v :: l)) with (v :: omap id l).
    by rewrite !length_cons.
  - rewrite filter_cons_True by done.
    change (omap id (None :: l)) with (omap id l).
    rewrite !length_cons, IH.
    assert (length (omap id l) ≤ length l); [|lia].
    clear. induction l as [|[?|] l IH]; [done|..].
    + change (omap id (Some v :: l)) with (v :: omap id l).
      rewrite !length_cons. lia.
    + change (omap id (None :: l)) with (omap id l).
      rewrite length_cons. lia.
Qed.

Lemma isnull_mean_missing_fraction s : pd.isnull_mean s = missing_fraction s.
Proof. unfold pd.isnull_mean, missing_fraction. by rewrite null_count_missing. Qed.

(** *** [remove_low_information_features] *)

(** The columns kept are the informative ones, in the order of the
    matrix. *)
Lemma keep_informative (fm : FeatureMatrix V) :
  keep_loop fm (pd.columns fm)
  = Ok (pd.columns (filter (λ kv, informative kv.2) (frame fm))).
Proof.
  rewrite keep_loop_sub; [|apply frame_labels|done].
  do 2 f_equal. apply list_filter_iff. intros kv.
  apply keep_column_informative.
Qed.

(** C5. For every feature matrix, [remove_low_information_features]
    returns a new matrix that holds exactly the columns with more than one
    distinct value (the missing value counted as one) and at least one
    value that is not missing, in the order of the matrix, and leaves the
    matrix it was given as it was. With a list of features, those named by
    a column kept are returned too. *)
Theorem remove_low_information_features_spec {F} (get_name : F → string)
    (fm : FeatureMatrix V) (r : loc) (features : option (list F))
    (σ : store V) :
  σ !! r = Some (frame fm) →
  let kept := filter (λ kv, informative kv.2) (frame fm) in
  let r' := fresh (dom σ) in
  remove_low_information_features get_name r features σ
  = Ok ((r', filter (λ f, get_name f ∈ pd.columns kept) <$> features),
        <[r' := kept]> σ)
  ∧ σ !! r' = None
  ∧ <[r' := kept]> σ !! r = Some (frame fm).
Proof.
  intros Hr kept r'.
  assert (σ !! r' = None) as Hfresh.
  { apply not_elem_of_dom. apply is_fresh. }
  split; [|split; [done|]].
  - unfold remove_low_information_features. rewrite Hr.
    rewrite keep_informative. simpl.
    rewrite getitem_list_sub; [|apply frame_labels|apply list_subseteq_filter].
    simpl. by destruct features.
  - rewrite lookup_insert_ne; [done|]. intros ->. congruence.
Qed.

(** *** [find_highly_null_features] *)

Lemma find_highly_null_features_Ok (fm : FeatureMatrix V) (t : float) :
  (t <? 0)%float || (1 <? t)%float = false →
  find_highly_null_features fm t
  = Ok (pd.columns
          (filter (λ kv, (t <? missing_fraction kv.2)%float = true)
                  (frame fm))).
Proof.
  intros Ht. unfold find_highly_null_features. rewrite Ht. cbv zeta.
  rewrite to_dict_columns by apply frame_labels.
  f_equal.
  etrans; [exact (filter_entries_columns (frame fm) pd.isnull_mean
                    (λ pct, (t <? pct)%float = true))|].
  f_equal. apply list_filter_iff. intros kv.
  by rewrite isnull_mean_missing_fraction.
Qed.

(** C6. For every feature matrix and every threshold in [0,1],
    [find_highly_null_features] returns exactly the names of the columns
    whose fraction of missing values is strictly greater than the
    threshold; a column whose fraction equals the threshold is not
    returned. *)
Theorem find_highly_null_features_spec (fm : FeatureMatrix V) (t : float) :
  in_unit_interval t →
  let highly_null :=
    pd.columns (filter (λ kv, (t <? missing_fraction kv.2)%float = true)
                       (frame fm)) in
  find_highly_null_features fm t = Ok highly_null
  ∧ ∀ c s, (c, s) ∈ frame fm →
      (missing_fraction s =? t)%float = true → c ∉ highly_null.
Proof.
  intros Ht highly_null. split.
  { apply find_highly_null_features_Ok. by apply in_unit_interval_check. }
  intros c s Hin Heq Hc. unfold highly_null, pd.columns in Hc.
  apply list_elem_of_fmap in Hc as ([c' s'] & -> & Hc). simpl in *.
  apply list_elem_of_filter in Hc as [Hlt Hin']. simpl in Hlt.
  assert (s' = s) as ->.
  { pose proof (getitem_elem _ _ _ (frame_labels fm) Hin) as H1.
    pose proof (getitem_elem _ _ _ (frame_labels fm) Hin') as H2.
    congruence. }
  apply float_eqb_not_lt in Heq. congruence.
Qed.

(** *** [find_single_value_features] *)

(** C7. For every feature matrix, [find_single_value_features] returns
    exactly the names of the columns whose count of distinct values is at
    most 1; the missing value is left out of the count when
    [count_nan_as_value] is false, so that a column of missing values only
    counts 0 and is returned, and is one more distinct value when
    [count_nan_as_value] is true. *)
Theorem find_single_value_features_spec (fm : FeatureMatrix V)
    (count_nan_as_value : bool) :
  find_single_value_features fm count_nan_as_value
  = pd.columns (filter (λ kv, distinct_count count_nan_as_value kv.2 ≤ 1)
                       (frame fm))
  ∧ (∀ c s, (c, s) ∈ frame fm → Forall (λ x, x = None) (pd.values s) →
       distinct_count false s = 0
       ∧ c ∈ find_single_value_features fm false)
  ∧ (∀ s, distinct_count true s
          = distinct_count false s + (if decide (has_missing s) then 1 else 0)).
Proof.
  assert (∀ b, find_single_value_features fm b
               = pd.columns (filter (λ kv, distinct_count b kv.2 ≤ 1)
                                    (frame fm))) as Hspec.
  { intros b. unfold find_single_value_features. cbv zeta.
    rewrite to_dict_columns by apply frame_labels.
    etrans; [exact (filter_entries_columns (frame fm)
                      (pd.nunique (negb b)) (λ n, n ≤ 1))|].
    f_equal. apply list_filter_iff. intros kv.
    by rewrite nunique_distinct_count. }
  split; [apply Hspec|split].
  - intros c s Hin Hall.
    assert (distinct_count false s = 0) as H0.
    { unfold distinct_count, non_missing. simpl.
      rewrite Nat.add_0_r.
      induction Hall as [|x l -> _ IH]; [done|exact IH]. }
    split; [done|]. rewrite Hspec. unfold pd.columns.
    apply list_elem_of_fmap. exists (c, s). split; [done|].
    apply list_elem_of_filter. split; [|done]. simpl. lia.
  - intros s. unfold distinct_count. simpl.
    destruct (decide (has_missing s));
      [rewrite bool_decide_eq_true_2 by done
      |rewrite bool_decide_eq_false_2 by done]; lia.
Qed.

(** *** Thresholds *)

(** C9. Whatever the feature matrix, [find_highly_null_features] and
    [find_highly_correlated_features] fail with [ValueError] if and only
    if the threshold is strictly less than 0 or strictly greater than 1;
    the failure is the same for every matrix and every other argument:
    nothing is read or computed before it. *)
Theorem threshold_errors (t : float) :
  (outside_unit_interval t →
     (∀ fm : pd.DataFrame V,
        find_highly_null_features fm t
        = Raise (ValueError
            "pct_null_threshold must be a float between 0 and 1, inclusive."))
     ∧ (∀ corr set_iter (fm : pd.DataFrame V) check excl,
        find_highly_correlated_features corr set_iter fm t check excl
        = Raise (ValueError
            "pct_corr_threshold must be a float between 0 and 1, inclusive.")))
  ∧ (∀ (fm : pd.DataFrame V) msg,
       find_highly_null_features fm t = Raise (ValueError msg) →
       outside_unit_interval t)
  ∧ (∀ corr set_iter (fm : pd.DataFrame V) check excl msg,
       find_highly_correlated_features corr set_iter fm t check excl
       = Raise (ValueError msg) →
       outside_unit_interval t).
Proof.
  split; [|split].
  - intros Ht. apply outside_unit_interval_check in Ht. split.
    + intros fm. unfold find_highly_null_features. by rewrite Ht.
    + intros corr set_iter fm check excl.
      unfold find_highly_correlated_features. by rewrite Ht.
  - intros fm msg. rewrite outside_unit_interval_check.
    unfold find_highly_null_features.
    by destruct ((t <? 0)%float || (1 <? t)%float).
  - intros corr set_iter fm check excl msg.
    rewrite outside_unit_interval_check.
    unfold find_highly_correlated_features, frame_to_check.
    destruct ((t <? 0)%float || (1 <? t)%float); [done|].
    match goal with
    | |- context [pd.getitem_list fm ?l] => generalize l
    end.
    intros labels.
    assert (∀ r, pd.getitem_list fm labels = Raise r → ∃ k, r = KeyError k)
      as Hkey.
    { induction labels as [|c labels IH]; intros r; simpl; [done|].
      unfold pd.getitem. destruct (find _ fm); simpl.
      - destruct (pd.getitem_list fm labels); simpl; [done|].
        intros [= <-]. by apply IH.
      - intros [= <-]. eauto. }
    destruct (pd.getitem_list fm labels) as [sel|r]; simpl; [done|].
    intros [= ->]. destruct (Hkey _ eq_refl) as [k Hk]. discriminate.
Qed.

(** *** [find_highly_correlated_features] *)

Lemma sorted_pair_sym a b : a ≠ b → sorted_pair a b = sorted_pair b a.
Proof.
  intros Hne. unfold sorted_pair, String.ltb.
  rewrite (String.compare_antisym a b).
  destruct (String.compare b a) eqn:Hc; simpl; try done.
  apply String.compare_eq_iff in Hc. congruence.
Qed.

Lemma pair_eqb_eq p q : pair_eqb p q = true ↔ p = q.
Proof.
  destruct p as [p1 p2], q as [q1 q2]. unfold pair_eqb. simpl.
  rewrite andb_true_iff, !String.eqb_eq. split; [by intros [-> ->]|].
  by intros [= -> ->].
Qed.

Lemma dict_contains_pair {A} (d : list ((string * string) * A)) p :
  dict_contains pair_eqb d p = true ↔ p ∈ d.*1.
Proof.
  unfold dict_contains. rewrite existsb_exists, list_elem_of_fmap. split.
  - intros (e & Hin & Heq). apply pair_eqb_eq in Heq.
    exists e. split; [done|]. by apply list_elem_of_In.
  - intros (e & -> & Hin). exists e. split; [by apply list_elem_of_In|].
    by apply pair_eqb_eq.
Qed.

Lemma dict_set_pair_fresh {A} (d : list ((string * string) * A)) p v :
  p ∉ d.*1 → dict_set pair_eqb d p v = d ++ [(p, v)].
Proof.
  induction d as [|[p' v'] d IH]; intros Hp; [done|]. simpl.
  rewrite fmap_cons, not_elem_of_cons in Hp. destruct Hp as [Hne Hp].
  simpl in Hne. destruct (pair_eqb p' p) eqn:Heq.
  - apply pair_eqb_eq in Heq. congruence.
  - by rewrite IH.
Qed.

Section correlation.
Context (corr : pd.Series V → pd.Series V → float).

(** Two names are covered by a table once their pair is one of its keys. *)
Local Definition covered (d : list ((string * string) * float))
    (a b : string) : Prop :=
  a ≠ b → sorted_pair a b ∈ d.*1.

Lemma covered_app d e a b : covered d a b → covered (d ++ e) a b.
Proof.
  unfold covered. intros Hc Hne. rewrite fmap_app, elem_of_app. auto.
Qed.

Lemma covered_sym d a b : covered d a b → covered d b a.
Proof.
  unfold covered. intros Hc Hne. rewrite <- sorted_pair_sym by done. auto.
Qed.

(** The position of a column in a frame with distinct labels. *)
Lemma column_position (f pre post : pd.DataFrame V) x :
  f = pre ++ x :: post → f !! length pre = Some x.
Proof. intros ->. by rewrite list_lookup_middle. Qed.

Lemma column_before (f pre post pre2 post2 : pd.DataFrame V) x y :
  NoDup (pd.columns f) →
  f = pre ++ x :: post → f = pre2 ++ y :: post2 → x.1 ≠ y.1 →
  length pre < length pre2 ∨ y.1 ∈ pd.columns pre.
Proof.
  intros Hnd Hx Hy Hne.
  destruct (decide (length pre < length pre2)) as [|Hge]; [by left|right].
  assert (length pre2 ≠ length pre) as Hlen.
  { intros Heq. apply Hne.
    pose proof (column_position _ _ _ _ Hx) as H1.
    pose proof (column_position _ _ _ _ Hy) as H2.
    rewrite Heq in H2. congruence. }
  assert (pre !! length pre2 = Some y) as Hin.
  { pose proof (column_position _ _ _ _ Hy) as H2.
    rewrite Hx, lookup_app_l in H2 by lia. done. }
  unfold pd.columns. apply list_elem_of_fmap. exists y. split; [done|].
  by eapply list_elem_of_lookup_2.
Qed.

(** The inner loop, from any point of its run. *)
Lemma corr_inner_inv (f pre post pre2 items2 : pd.DataFrame V) x d :
  NoDup (pd.columns f) →
  f = pre ++ x :: post → f = pre2 ++ items2 →
  NoDup d.*1 → Forall (pair_entry corr f) d →
  (∀ a b, a ∈ pd.columns pre → b ∈ pd.columns f → covered d a b) →
  (∀ b, b ∈ pd.columns pre2 → covered d x.1 b) →
  let d' := corr_inner corr x.1 x.2 items2 d in
  NoDup d'.*1 ∧ Forall (pair_entry corr f) d'
  ∧ (∀ a b, a ∈ pd.columns pre → b ∈ pd.columns f → covered d' a b)
  ∧ (∀ b, b ∈ pd.columns f → covered d' x.1 b).
Proof.
  intros Hnd Hx. revert pre2 d.
  induction items2 as [|y items2 IH]; intros pre2 d Hy Hkeys Hent Hpre Hcur.
  { simpl. rewrite app_nil_r in Hy. subst pre2. done. }
  destruct y as [n2 c2]. cbn [corr_inner].
  assert (f = (pre2 ++ [(n2, c2)]) ++ items2) as Hy'.
  { by rewrite <- app_assoc. }
  assert (∀ d0, (∀ b, b ∈ pd.columns pre2 → covered d0 x.1 b) →
            covered d0 x.1 n2 →
            ∀ b, b ∈ pd.columns (pre2 ++ [(n2, c2)]) → covered d0 x.1 b)
    as Hstep.
  { intros d0 Hc Hn b. unfold pd.columns.
    rewrite fmap_app, elem_of_app. intros [Hb|Hb]; [by apply Hc|].
    apply list_elem_of_singleton in Hb. by subst b. }
  destruct (String.eqb x.1 n2) eqn:Hsame; simpl.
  { apply String.eqb_eq in Hsame.
    apply (IH (pre2 ++ [(n2, c2)])); try done.
    apply Hstep; [done|]. intros Hne. congruence. }
  apply String.eqb_neq in Hsame.
  destruct (dict_contains pair_eqb d (sorted_pair x.1 n2)) eqn:Hin.
  { apply dict_contains_pair in Hin.
    apply (IH (pre2 ++ [(n2, c2)])); try done.
    apply Hstep; [done|]. by intros _. }
  assert (sorted_pair x.1 n2 ∉ d.*1) as Hfresh.
  { intros Hc. apply dict_contains_pair in Hc. congruence. }
  rewrite dict_set_pair_fresh by done.
  apply (IH (pre2 ++ [(n2, c2)])); try done.
  - rewrite fmap_app. apply NoDup_app. split; [done|]. split.
    + intros p Hp Hp'. apply list_elem_of_singleton in Hp'. by subst p.
    + apply NoDup_singleton.
  - apply Forall_app. split; [done|]. apply Forall_singleton.
    destruct (column_before f pre post pre2 items2 x (n2, c2))
      as [Hlt|Hbefore]; try done.
    + exists (length pre), (length pre2), x.1, x.2, n2, c2.
      split; [done|]. split.
      { rewrite (column_position _ _ _ _ Hx). by destruct x. }
      split; [by rewrite (column_position _ _ _ _ Hy)|done].
    + destruct Hfresh. rewrite sorted_pair_sym by done.
      apply Hpre; [done| |done].
      rewrite Hx. unfold pd.columns. rewrite fmap_app, fmap_cons.
      apply elem_of_app. right. apply list_elem_of_here.
  - intros a b Ha Hb. by apply covered_app, Hpre.
  - apply Hstep.
    + intros b Hb. by apply covered_app, Hcur.
    + intros _. rewrite fmap_app, elem_of_app. right.
      apply list_elem_of_here.
Qed.

(** The outer loop, from any point of its run. *)
Lemma corr_outer_inv (f pre items : pd.DataFrame V) d :
  NoDup (pd.columns f) → f = pre ++ items →
  NoDup d.*1 → Forall (pair_entry corr f) d →
  (∀ a b, a ∈ pd.columns pre → b ∈ pd.columns f → covered d a b) →
  let d' := corr_outer corr items f d in
  NoDup d'.*1 ∧ Forall (pair_entry corr f) d'
  ∧ (∀ a b, a ∈ pd.columns f → b ∈ pd.columns f → covered d' a b).
Proof.
  intros Hnd. revert pre d.
  induction items as [|x items IH]; intros pre d Hf Hkeys Hent Hpre.
  { simpl. rewrite app_nil_r in Hf. subst pre. done. }
  destruct x as [n1 c1]. cbn [corr_outer].
  destruct (corr_inner_inv f pre items [] f (n1, c1) d)
    as (Hkeys' & Hent' & Hpre' & Hcur'); try done.
  { intros b Hb. by apply elem_of_nil in Hb. }
  apply (IH (pre ++ [(n1, c1)])); try done.
  { by rewrite <- app_assoc. }
  intros a b Ha Hb. unfold pd.columns in Ha.
  rewrite fmap_app, elem_of_app in Ha. destruct Ha as [Ha|Ha].
  - by apply Hpre'.
  - apply list_elem_of_singleton in Ha. subst a. by apply Hcur'.
Qed.

(** The table of correlations of a frame with distinct labels: one entry
    for each pair of different columns. *)
Lemma corr_outer_table (f : pd.DataFrame V) :
  NoDup (pd.columns f) →
  let d := corr_outer corr f f [] in
  NoDup d.*1 ∧ Forall (pair_entry corr f) d
  ∧ (∀ a b, a ∈ pd.columns f → b ∈ pd.columns f → a ≠ b →
       sorted_pair a b ∈ d.*1).
Proof.
  intros Hnd.
  destruct (corr_outer_inv f [] f []) as (H1 & H2 & H3); try done.
  { apply NoDup_nil_2. }
  intros a b Ha. by apply elem_of_nil in Ha.
Qed.

Lemma getitem_list_labels (df : pd.DataFrame V) (labels : list string) :
  NoDup (pd.columns df) → labels ⊆ pd.columns df →
  ∃ sel, pd.getitem_list df labels = Ok sel
         ∧ pd.columns sel = labels ∧ sel ⊆ df.
Proof.
  intros Hnd. induction labels as [|c labels IH]; intros Hsub.
  { exists []. split; [done|]. split; [done|]. apply list_subseteq_nil. }
  destruct IH as (sel & Hsel & Hcols & Hin); [set_solver|].
  assert (c ∈ pd.columns df) as Hc by set_solver.
  unfold pd.columns in Hc.
  apply list_elem_of_fmap in Hc as ([c' s] & -> & Hc). simpl.
  exists ((c', s) :: sel). rewrite (getitem_elem df c' s) by done.
  simpl. rewrite Hsel. simpl. split; [done|]. split.
  - rewrite <- Hcols. reflexivity.
  - set_solver.
Qed.

Section table.
Context (set_iter : gset string → list string).
Hypothesis set_iter_elements : ∀ X, set_iter X ≡ₚ elements X.

(** The frame the correlations are computed on holds the columns to
    consider, each once. *)
Lemma frame_to_check_considered (fm : FeatureMatrix V)
    (check excl : option (gset string)) :
  names_to_check fm check excl ⊆ list_to_set (pd.columns fm) →
  ∃ f, frame_to_check set_iter fm check excl = Ok f
       ∧ NoDup (pd.columns f)
       ∧ ∀ c s, (c, s) ∈ f ↔ considered fm check excl c s.
Proof.
  intros Hsub. unfold frame_to_check.
  set (X := match excl with
            | Some e =>
                filter (λ col, col ∉ e)
                  match check with
                  | Some chk => chk
                  | None => list_to_set (pd.columns fm)
                  end
            | None =>
                match check with
                | Some chk => chk
                | None => list_to_set (pd.columns fm)
                end
            end).
  assert (X = names_to_check fm check excl) as HX.
  { unfold X, names_to_check. apply set_eq. intros c.
    destruct excl as [e|], check as [chk|]; simpl;
      rewrite ?elem_of_filter, elem_of_difference; set_solver. }
  destruct (getitem_list_labels fm (set_iter X)) as (sel & Hsel & Hcols & Hin).
  { apply frame_labels. }
  { intros c Hc. rewrite set_iter_elements in Hc.
    apply elem_of_elements in Hc. rewrite HX in Hc.
    apply Hsub in Hc. by apply elem_of_list_to_set in Hc. }
  rewrite Hsel. simpl. eexists. split; [done|].
  assert (NoDup (pd.columns sel)) as Hnd.
  { rewrite Hcols, set_iter_elements. apply NoDup_elements. }
  split.
  { unfold pd.select_dtypes. by apply columns_filter_NoDup. }
  intros c s. unfold pd.select_dtypes, considered.
  rewrite list_elem_of_filter. simpl. rewrite <- HX.
  assert ((c, s) ∈ sel ↔ (c, s) ∈ frame fm ∧ c ∈ X) as ->; [|tauto].
  split.
  - intros Hc. split; [by apply Hin|].
    apply elem_of_elements. rewrite <- set_iter_elements, <- Hcols.
    unfold pd.columns. apply list_elem_of_fmap. by exists (c, s).
  - intros [Hc HcX].
    apply elem_of_elements in HcX.
    rewrite <- set_iter_elements, <- Hcols in HcX. unfold pd.columns in HcX.
    apply list_elem_of_fmap in HcX as ([c' s'] & -> & Hc'). simpl in *.
    assert (s' = s) as ->; [|done].
    pose proof (getitem_elem _ _ _ (frame_labels fm) Hc) as H1.
    pose proof (getitem_elem _ _ _ (frame_labels fm) (Hin _ Hc')) as H2.
    congruence.
Qed.

(** C8 (amended). For every feature matrix and threshold in [0,1], when
    the names to check ([features_to_check], all columns by default, minus
    [features_to_exclude]) are all columns of the matrix,
    [find_highly_correlated_features] considers only the columns of these
    names whose storage dtype is one of int16, int32, int64, float16,
    float32, float64 and bool (a column of another dtype is dropped
    without error, also when it is listed), computes the absolute
    correlation once for each unordered pair of different columns
    considered, and returns exactly the pairs whose absolute correlation is
    greater than or equal to the threshold. *)
Theorem find_highly_correlated_features_spec (fm : FeatureMatrix V)
    (t : float) (check excl : option (gset string)) :
  in_unit_interval t →
  names_to_check fm check excl ⊆ list_to_set (pd.columns fm) →
  ∃ f d,
    frame_to_check set_iter fm check excl = Ok f
    ∧ (∀ c s, (c, s) ∈ f ↔ considered fm check excl c s)
    ∧ d = corr_outer corr f f []
    ∧ NoDup d.*1
    ∧ Forall (pair_entry corr f) d
    ∧ (∀ a b, a ∈ pd.columns f → b ∈ pd.columns f → a ≠ b →
         sorted_pair a b ∈ d.*1)
    ∧ find_highly_correlated_features corr set_iter fm t check excl
      = Ok (filter (λ e, (t <=? e.2)%float = true) d).*1.
Proof.
  intros Ht Hsub.
  destruct (frame_to_check_considered fm check excl Hsub)
    as (f & Hf & Hnd & Hcons).
  destruct (corr_outer_table f Hnd) as (Hkeys & Hent & Hall).
  exists f, (corr_outer corr f f []).
  repeat (split; [done|]).
  unfold find_highly_correlated_features.
  rewrite (in_unit_interval_check t Ht), Hf. done.
Qed.

End table.
End correlation.

End frames.

(** *** The examples of the specification *)

Import SelectionExamples.

(** The constant column [1,1,1] is dropped and the column [1,2,3] is
    kept, in a new frame; the frame given is still there. *)
Lemma remove_low_information_features_spec_witness :
  let σ : store Z := {[ 1%positive := frame constant_and_varying ]} in
  σ !! 1%positive = Some (frame constant_and_varying)
  ∧ remove_low_information_features id 1%positive
      (Some ["constant"; "varying"; "other"]) σ
    = Ok ((2%positive, Some ["varying"]),
          <[2%positive :=
              [("varying", column "int64" [Some 1; Some 2; Some 3]%Z)]]> σ)
  ∧ <[2%positive :=
        [("varying", column "int64" [Some 1; Some 2; Some 3]%Z)]]> σ
    !! 1%positive = Some (frame constant_and_varying).
Proof.
  intros σ.
  assert (σ !! 1%positive = Some (frame constant_and_varying)) as Hr.
  { vm_compute. reflexivity. }
  split; [exact Hr|].
  destruct (remove_low_information_features_spec id constant_and_varying
              1%positive (Some ["constant"; "varying"; "other"]) σ Hr)
    as (Hcall & _ & Hsame).
  split; [rewrite Hcall; vm_compute; reflexivity|].
  vm_compute. reflexivity.
Defined.

(** With the threshold 0.5 the column with half of its values missing is
    not returned, and the one with three quarters missing is. *)
Lemma find_highly_null_features_spec_witness :
  in_unit_interval 0.5
  ∧ find_highly_null_features partly_missing 0.5 = Ok ["sparse"]
  ∧ "half" ∉ ["sparse"].
Proof.
  assert (in_unit_interval 0.5) as Ht.
  { split; vm_compute; reflexivity. }
  split; [exact Ht|].
  destruct (find_highly_null_features_spec partly_missing 0.5 Ht)
    as [Hcall Heq].
  split; [rewrite Hcall; vm_compute; reflexivity|].
  apply (Heq "half" (column "float64" [Some 1; None; Some 3; None]%Z)).
  - vm_compute. apply list_elem_of_further, list_elem_of_here.
  - vm_compute. reflexivity.
Defined.

(** C8, as stated, fails. A name of [features_to_check] that is no column
    of the matrix makes the call fail with [KeyError]; and two columns of
    the numeric dtype uint8 are not considered, whatever their
    correlation. *)
Lemma find_highly_correlated_features_unlisted :
  find_highly_correlated_features (λ _ _, 1%float) elements
    numbers_and_text 0.5 (Some {["up"; "elsewhere"]}) None
  = Raise (KeyError "elsewhere")
  ∧ find_highly_correlated_features (λ _ _, 1%float) elements
      unsigned_bytes 0.5 None None
    = Ok [].
Proof. split; vm_compute; reflexivity. Qed.

(** Two columns of correlation -1 and the threshold 0.95: their pair is
    returned; the column of strings is in no pair although it is listed. *)
Lemma find_highly_correlated_features_spec_witness :
  let corr : pd.Series Z → pd.Series Z → float := λ _ _, (-1)%float in
  let check : option (gset string) := Some {["up"; "text"; "down"]} in
  (∀ X : gset string, elements X ≡ₚ elements X)
  ∧ in_unit_interval 0.75
  ∧ names_to_check numbers_and_text check None
    ⊆ list_to_set (pd.columns numbers_and_text)
  ∧ find_highly_correlated_features corr elements numbers_and_text 0.75
      check None
    = Ok [("down", "up")].
Proof.
  intros corr check.
  assert (in_unit_interval 0.75) as Ht.
  { split; vm_compute; reflexivity. }
  assert (names_to_check numbers_and_text check None
          ⊆ list_to_set (pd.columns numbers_and_text)) as Hsub.
  { apply (bool_decide_unpack _). vm_compute. exact I. }
  split; [reflexivity|]. split; [exact Ht|]. split; [exact Hsub|].
  destruct (find_highly_correlated_features_spec corr elements
              (λ X, reflexivity (elements X))
              numbers_and_text 0.75 check None Ht Hsub)
    as (f & d & Hf & _ & -> & _ & _ & _ & Hcall).
  rewrite Hcall.
  assert (f = [("up", column "int64" [Some 1; Some 2; Some 3]%Z);
               ("down", column "float64" [Some 3; Some 2; Some 1]%Z)])
    as ->.
  { vm_compute in Hf. injection Hf as <-. reflexivity. }
  vm_compute. reflexivity.
Defined.

End SelectionProps.

(** ** More about [ColumnSpec]: the queries no claim describes *)

Module ColumnSpecExtra.
Import ColumnSpec ColumnSpecSpec ColumnSpecProps.

Local Opaque auto_keyname_bound.

(** *** [get_colnames] *)

Lemma getitem_Ok (d : colinfo) k v : getitem d k = Ok v ↔ d !! k = Some v.
Proof. unfold getitem. destruct (d !! k); split; congruence. Qed.

Lemma getitem_Raise (d : colinfo) k e :
  getitem d k = Raise e ↔ e = KeyError k ∧ d !! k = None.
Proof.
  unfold getitem. destruct (d !! k); split.
  - discriminate.
  - by intros [_ ?].
  - by intros [= <-].
  - by intros [-> _].
Qed.

Lemma get_colnames_loop_Ok (l : list colinfo) acc names :
  get_colnames_loop l acc = Ok names
  ↔ ∃ rest, names = acc ++ rest
            ∧ Forall2 (λ d n, d !! "name" = Some n) l rest.
Proof.
  revert acc. induction l as [|d l IH]; intros acc; simpl.
  - split.
    + intros [= <-]. exists []. by rewrite app_nil_r.
    + intros (rest & -> & Hrest). apply Forall2_nil_inv_l in Hrest as ->.
      by rewrite app_nil_r.
  - destruct (d !! "name") as [n|] eqn:Hn.
    + rewrite (getitem_Some _ _ _ Hn). simpl. rewrite IH. split.
      * intros (rest & -> & Hrest). exists (n :: rest).
        rewrite <- app_assoc. split; [done|]. by constructor.
      * intros (rest & -> & Hrest).
        apply Forall2_cons_inv_l in Hrest as (n' & rest' & Hn' & Hrest & ->).
        exists rest'. rewrite <- app_assoc. split; [|done].
        simpl. congruence.
    + assert (getitem d "name" = Raise (KeyError "name")) as ->.
      { by apply getitem_Raise. }
      simpl. split; [done|]. intros (rest & _ & Hrest).
      apply Forall2_cons_inv_l in Hrest as (? & ? & ? & _). congruence.
Qed.

Lemma get_colnames_loop_Raise (l : list colinfo) acc e :
  get_colnames_loop l acc = Raise e
  ↔ e = KeyError "name" ∧ Exists (λ d, d !! "name" = None) l.
Proof.
  revert acc. induction l as [|d l IH]; intros acc; simpl.
  - rewrite Exists_nil. split; [done|tauto].
  - rewrite Exists_cons. destruct (d !! "name") as [n|] eqn:Hn.
    + rewrite (getitem_Some _ _ _ Hn). simpl. rewrite IH.
      split; [tauto|]. intros [? [?|?]]; [congruence|done].
    + assert (getitem d "name" = Raise (KeyError "name")) as ->.
      { by apply getitem_Raise. }
      simpl. split; [intros [= <-]; tauto|]. by intros [-> _].
Qed.

(** X1. [get_colnames] returns one name per descriptor, in order, and fails
    with [KeyError('name')] exactly when a descriptor has no name. *)
Theorem get_colnames_names (l : list colinfo) :
  (∀ names, get_colnames (init l) = Ok names
            ↔ Forall2 (λ d n, d !! "name" = Some n) l names)
  ∧ (∀ e, get_colnames (init l) = Raise e
          ↔ e = KeyError "name" ∧ Exists (λ d, d !! "name" = None) l).
Proof.
  unfold get_colnames. simpl. split.
  - intros names. rewrite get_colnames_loop_Ok. split.
    + by intros (rest & -> & Hrest).
    + intros Hn. by exists names.
  - intros e. apply get_colnames_loop_Raise.
Qed.

(** *** [get_usecols] and the other queries *)

Lemma get_usecols_loop_all (l : list colinfo) acc :
  get_usecols_loop false false false l acc = get_colnames_loop l acc.
Proof.
  revert acc. induction l as [|d l IH]; intros acc; simpl; [done|].
  destruct (getitem d "name"); simpl; [apply IH|done].
Qed.

(** X2. Without a filter [get_usecols] is [get_colnames], on every instance:
    the same names, or the same failure. *)
Theorem get_usecols_default_get_colnames (self : t) :
  get_usecols self false false false = get_colnames self.
Proof. apply get_usecols_loop_all. Qed.

Lemma get_usecols_loop_label_skip (l : list colinfo) acc :
  get_usecols_loop false true true l acc = Ok acc.
Proof.
  revert acc. induction l as [|d l IH]; intros acc; simpl; [done|].
  unfold usecols_skip. simpl.
  destruct (flag d "label"); simpl; apply IH.
Qed.

(** X3. [label_only] together with [exclude_skip] selects nothing: a
    descriptor is skipped for having no label, or for having one; no field
    but the flags is read, so the call returns the empty list whatever the
    descriptors are. *)
Theorem get_usecols_label_only_exclude_skip (self : t) :
  get_usecols self false true true = Ok [].
Proof. apply get_usecols_loop_label_skip. Qed.

(** *** [get_bypass_colnames] *)

Lemma get_bypass_colnames_loop_filter (l : list colinfo) acc :
  get_bypass_colnames_loop l acc
  = get_colnames_loop (filter (λ d, is_set d "bypass") l) acc.
Proof.
  revert acc. induction l as [|d l IH]; intros acc; simpl; [done|].
  rewrite filter_cons.
  destruct (is_set_flag d "bypass") as [[Hs ->]|[Hs ->]].
  - rewrite decide_True by done. simpl.
    destruct (getitem d "name"); simpl; [apply IH|done].
  - rewrite decide_False by done. apply IH.
Qed.

Lemma Exists_filter {A} (P Q : A → Prop) `{∀ x, Decision (Q x)} (l : list A) :
  Exists P (filter Q l) ↔ Exists (λ x, Q x ∧ P x) l.
Proof.
  rewrite !Exists_exists. split.
  - intros (x & Hin & HP). apply list_elem_of_filter in Hin as [HQ Hin]. eauto.
  - intros (x & Hin & HQ & HP). exists x. split; [|done].
    by apply list_elem_of_filter.
Qed.

(** X4. [get_bypass_colnames] returns the names of the descriptors with
    bypass = true, in order; only these descriptors need a name: the call
    fails with [KeyError('name')] exactly when one of them has none. *)
Theorem get_bypass_colnames_names (l : list colinfo) :
  (∀ names, get_bypass_colnames (init l) = Ok names
            ↔ Forall2 (λ d n, d !! "name" = Some n)
                      (filter (λ d, is_set d "bypass") l) names)
  ∧ (∀ e, get_bypass_colnames (init l) = Raise e
          ↔ e = KeyError "name"
            ∧ Exists (λ d, is_set d "bypass" ∧ d !! "name" = None) l).
Proof.
  unfold get_bypass_colnames. simpl.
  rewrite get_bypass_colnames_loop_filter. split.
  - intros names. rewrite get_colnames_loop_Ok. split.
    + by intros (rest & -> & Hrest).
    + intros Hn. by exists names.
  - intros e. rewrite get_colnames_loop_Raise, Exists_filter. done.
Qed.

(** *** [get_label_colname] and [get_train_colname] *)

Lemma first_flagged_first k (l1 l2 : list colinfo) d :
  Forall (λ d', ¬ is_set d' k) l1 → is_set d k →
  first_flagged k (l1 ++ d :: l2) = (name ← getitem d "name"; Ok (Some name)).
Proof.
  intros Hl1 Hd. induction Hl1 as [|d' l1 Hd' _ IH]; simpl.
  - unfold is_set in Hd. by rewrite Hd.
  - destruct (is_set_flag d' k) as [[? _]|[_ ->]]; done.
Qed.

(** A list splits at its first descriptor with the flag [k], if any. *)
Lemma first_set_split k (l : list colinfo) :
  Forall (λ d, ¬ is_set d k) l
  ∨ ∃ l1 d l2, l = l1 ++ d :: l2
               ∧ Forall (λ d', ¬ is_set d' k) l1 ∧ is_set d k.
Proof.
  induction l as [|d l IH]; [by left|].
  destruct (decide (is_set d k)) as [Hd|Hd].
  - right. exists [], d, l. by repeat split.
  - destruct IH as [IH|(l1 & d' & l2 & -> & Hl1 & Hd')].
    + left. by constructor.
    + right. exists (d :: l1), d', l2. repeat split; [|done]. by constructor.
Qed.

(** X5. [get_label_colname] returns [None] when no descriptor has
    label = true, and otherwise the name of the first one that has, whatever
    the descriptors after it; it fails ([KeyError('name')]) only when that
    first one has no name. *)
Theorem get_label_colname_first (l : list colinfo) :
  (Forall (λ d, ¬ is_set d "label") l → get_label_colname (init l) = Ok VNone)
  ∧ (∀ l1 d l2, l = l1 ++ d :: l2 →
       Forall (λ d', ¬ is_set d' "label") l1 → is_set d "label" →
       get_label_colname (init l) = getitem d "name").
Proof.
  unfold get_label_colname. simpl. split.
  - intros Hl. by rewrite first_flagged_None.
  - intros l1 d l2 -> Hl1 Hd. rewrite first_flagged_first by done.
    by destruct (getitem d "name").
Qed.

(** X6. [get_train_colname] returns [None] when no descriptor has
    train = true, and otherwise the name of the first one that has; later
    descriptors with train = true are not looked at. *)
Theorem get_train_colname_first (l : list colinfo) :
  (Forall (λ d, ¬ is_set d "train") l → get_train_colname (init l) = Ok VNone)
  ∧ (∀ l1 d l2, l = l1 ++ d :: l2 →
       Forall (λ d', ¬ is_set d' "train") l1 → is_set d "train" →
       get_train_colname (init l) = getitem d "name").
Proof.
  unfold get_train_colname. simpl. split.
  - intros Hl. by rewrite first_flagged_None.
  - intros l1 d l2 -> Hl1 Hd. rewrite first_flagged_first by done.
    by destruct (getitem d "name").
Qed.

Lemma count_set_0 k (l : list colinfo) :
  count_set k l = 0 ↔ Forall (λ d, ¬ is_set d k) l.
Proof.
  unfold count_set. induction l as [|d l IH]; simpl.
  { split; [constructor|done]. }
  rewrite filter_cons, Forall_cons.
  destruct (decide (is_set d k)); simpl; [|tauto].
  split; [lia|tauto].
Qed.

Lemma filter_passes_label (l : list colinfo) :
  filter (passes false true false) l = filter (λ d, is_set d "label") l.
Proof.
  apply list_filter_iff. intros d. unfold passes.
  split; [intros (_ & H & _); by apply H|]. intros Hd.
  split; [done|]. split; done.
Qed.

(** X7. On a list that [validate] accepts the two ways to ask for the label
    column agree: [get_usecols(label_only=True)] is empty when
    [get_label_colname] finds no label, and otherwise holds the one name
    that [get_label_colname] returns. *)
Theorem label_queries_agree (l : list colinfo) :
  validate (init l) = OK →
  (Forall (λ d, ¬ is_set d "label") l
   ∧ get_label_colname (init l) = Ok VNone
   ∧ get_usecols (init l) false true false = Ok [])
  ∨ (∃ d name, d ∈ l ∧ is_set d "label" ∧ d !! "name" = Some name
       ∧ get_label_colname (init l) = Ok name
       ∧ get_usecols (init l) false true false = Ok [name]).
Proof.
  intros Hv. apply validate_OK_valid_columns in Hv as (Hnt & _ & Hlab & _).
  unfold get_usecols, get_label_colname. simpl.
  rewrite get_usecols_loop_spec by done. simpl.
  rewrite filter_passes_label.
  destruct (first_set_split "label" l)
    as [Hnone|(l1 & d & l2 & -> & Hl1 & Hd)].
  - left. split; [done|]. rewrite first_flagged_None by done.
    split; [done|]. apply count_set_0 in Hnone. unfold count_set in Hnone.
    by apply nil_length_inv in Hnone as ->.
  - right. apply Forall_app in Hnt as [_ Hnt].
    apply Forall_cons in Hnt as [[[name Hname] _] _].
    exists d, name. split; [set_solver|].
    split; [done|]. split; [done|].
    rewrite first_flagged_first by done.
    rewrite (getitem_Some _ _ _ Hname). simpl. split; [done|].
    rewrite count_set_app, count_set_cons, decide_True in Hlab by done.
    assert (count_set "label" l1 = 0) as H1 by lia.
    assert (count_set "label" l2 = 0) as H2 by lia.
    unfold count_set in H1, H2.
    apply nil_length_inv in H1. apply nil_length_inv in H2.
    rewrite filter_app, filter_cons, decide_True by done.
    rewrite H1, H2. simpl. unfold name_of. by rewrite Hname.
Qed.

Lemma label_queries_agree_witness :
  let l : list colinfo :=
    [ {["name" := VStr "a"; "type" := VStr "number"; "key" := VBool true]};
      {["name" := VStr "b"; "type" := VStr "string"; "label" := VBool true]} ]
  in
  validate (init l) = OK
  ∧ get_label_colname (init l) = Ok (VStr "b")
  ∧ get_usecols (init l) false true false = Ok [VStr "b"].
Proof.
  intros l.
  assert (validate (init l) = OK) as Hv by (vm_compute; reflexivity).
  split; [exact Hv|].
  destruct (label_queries_agree l Hv)
    as [(Hnone & _)|(d & name & _ & _ & _ & Hlab & Huse)].
  - exfalso. apply Forall_cons in Hnone as [_ Hnone].
    apply Forall_cons in Hnone as [Hb _]. apply Hb. vm_compute. reflexivity.
  - assert (name = VStr "b") as ->.
    { assert (get_label_colname (init l) = Ok (VStr "b")) as Hb
        by (vm_compute; reflexivity).
      congruence. }
    split; [exact Hlab|exact Huse].
Defined.

(** *** [get_is_numerics] *)

(** What [get_is_numerics] appends for the descriptor [d]. *)
Local Definition numeric_entry (d : colinfo) (b : bool) : Prop :=
  (is_set d "label" ∨ is_set d "bypass" ∨ is_Some (d !! "type"))
  ∧ (b = true ↔
       ¬ is_set d "label" ∧ ¬ is_set d "bypass"
       ∧ (d !! "type" = Some (VStr "number")
          ∨ d !! "type" = Some (VStr "bool"))).

Lemma numeric_entry_skipped (d : colinfo) b :
  flag d "label" || flag d "bypass" = true →
  numeric_entry d b ↔ b = false.
Proof.
  intros Hf. apply orb_true_iff in Hf. unfold numeric_entry, is_set.
  split.
  - intros [_ Hb]. destruct b; [|done]. destruct Hb as [Hb _].
    destruct (Hb eq_refl) as (? & ? & _). tauto.
  - intros ->. split; [tauto|]. split; [done|]. tauto.
Qed.

Lemma numeric_entry_typed (d : colinfo) b :
  flag d "label" || flag d "bypass" = false →
  numeric_entry d b ↔ ∃ ty, d !! "type" = Some ty ∧ b = _is_numeric_type ty.
Proof.
  intros Hf. apply orb_false_iff in Hf as [Hl Hp].
  unfold numeric_entry, is_set. rewrite Hl, Hp. split.
  - intros [[?|[?|[ty Hty]]] Hb]; [done..|]. exists ty. split; [done|].
    apply eq_true_iff_eq. rewrite Hb, _is_numeric_type_spec, Hty.
    split.
    + intros (_ & _ & [?|?]); [left|right]; congruence.
    + intros [?|?]; (split; [done|]; split; [done|]);
        [left|right]; congruence.
  - intros (ty & Hty & ->). split; [right; right; by exists ty|].
    rewrite _is_numeric_type_spec, Hty. split.
    + intros [?|?]; (split; [done|]; split; [done|]);
        [left|right]; congruence.
    + intros (_ & _ & [?|?]); [left|right]; congruence.
Qed.

Lemma get_is_numerics_loop_Ok (l : list colinfo) acc bs :
  get_is_numerics_loop l acc = Ok bs
  ↔ ∃ rest, bs = acc ++ rest ∧ Forall2 numeric_entry l rest.
Proof.
  revert acc. induction l as [|d l IH]; intros acc; simpl.
  - split.
    + intros [= <-]. exists []. by rewrite app_nil_r.
    + intros (rest & -> & Hrest). apply Forall2_nil_inv_l in Hrest as ->.
      by rewrite app_nil_r.
  - destruct (flag d "label" || flag d "bypass") eqn:Hf.
    + rewrite IH. split.
      * intros (rest & -> & Hrest). exists (false :: rest).
        rewrite <- app_assoc. split; [done|]. constructor; [|done].
        by apply numeric_entry_skipped.
      * intros (rest & -> & Hrest).
        apply Forall2_cons_inv_l in Hrest as (b & rest' & Hb & Hrest & ->).
        apply numeric_entry_skipped in Hb as ->; [|done].
        exists rest'. by rewrite <- app_assoc.
    + destruct (d !! "type") as [ty|] eqn:Hty.
      * rewrite (getitem_Some _ _ _ Hty). simpl. rewrite IH. split.
        -- intros (rest & -> & Hrest). exists (_is_numeric_type ty :: rest).
           rewrite <- app_assoc. split; [done|]. constructor; [|done].
           apply numeric_entry_typed; [done|]. by exists ty.
        -- intros (rest & -> & Hrest).
           apply Forall2_cons_inv_l in Hrest as (b & rest' & Hb & Hrest & ->).
           apply numeric_entry_typed in Hb as (ty' & Hty' & ->); [|done].
           exists rest'. rewrite <- app_assoc. split; [|done].
           simpl. congruence.
      * assert (getitem d "type" = Raise (KeyError "type")) as ->.
        { by apply getitem_Raise. }
        simpl. split; [done|]. intros (rest & _ & Hrest).
        apply Forall2_cons_inv_l in Hrest as (b & ? & Hb & _).
        apply numeric_entry_typed in Hb as (ty' & Hty' & _); [|done].
        congruence.
Qed.

Lemma get_is_numerics_loop_Raise (l : list colinfo) acc e :
  get_is_numerics_loop l acc = Raise e
  ↔ e = KeyError "type"
    ∧ Exists (λ d, ¬ is_set d "label" ∧ ¬ is_set d "bypass"
                   ∧ d !! "type" = None) l.
Proof.
  revert acc. induction l as [|d l IH]; intros acc; simpl.
  - rewrite Exists_nil. split; [done|tauto].
  - rewrite Exists_cons.
    destruct (is_set_flag d "label") as [[Hl Hfl]|[Hl Hfl]];
      destruct (is_set_flag d "bypass") as [[Hp Hfp]|[Hp Hfp]];
      rewrite Hfl, Hfp; simpl; try (rewrite IH; tauto).
    destruct (d !! "type") as [ty|] eqn:Hty.
    + rewrite (getitem_Some _ _ _ Hty). simpl. rewrite IH.
      split; [tauto|]. intros [? [(_ & _ & ?)|?]]; [congruence|done].
    + assert (getitem d "type" = Raise (KeyError "type")) as ->.
      { by apply getitem_Raise. }
      simpl. split; [intros [= <-]; tauto|]. by intros [-> _].
Qed.

(** X8. [get_is_numerics] returns one flag per descriptor, in order: false
    for a descriptor with label = true or bypass = true, whose type is not
    read, and otherwise whether the type is "number" or "bool" (train is
    not looked at). It fails, with [KeyError('type')], exactly when a
    descriptor that is neither label nor bypass has no type. *)
Theorem get_is_numerics_flags (l : list colinfo) :
  (∀ bs, get_is_numerics (init l) = Ok bs
         ↔ Forall2 (λ d (b : bool),
             (is_set d "label" ∨ is_set d "bypass" ∨ is_Some (d !! "type"))
             ∧ (b = true ↔
                  ¬ is_set d "label" ∧ ¬ is_set d "bypass"
                  ∧ (d !! "type" = Some (VStr "number")
                     ∨ d !! "type" = Some (VStr "bool")))) l bs)
  ∧ (∀ e, get_is_numerics (init l) = Raise e
          ↔ e = KeyError "type"
            ∧ Exists (λ d, ¬ is_set d "label" ∧ ¬ is_set d "bypass"
                           ∧ d !! "type" = None) l).
Proof.
  unfold get_is_numerics. simpl. split.
  - intros bs. rewrite get_is_numerics_loop_Ok. split.
    + by intros (rest & -> & Hrest).
    + intros Hn. by exists bs.
  - intros e. apply get_is_numerics_loop_Raise.
Qed.

Lemma usecols_of_flags (l : list colinfo) (bs : list bool) :
  Forall2 numeric_entry l bs →
  Forall (λ d, ¬ is_set d "train") l →
  name_of <$> filter (passes true false true) l
  = (filter (λ nb, nb.2 = true) (zip (name_of <$> l) bs)).*1.
Proof.
  intros Hbs. induction Hbs as [|d b l bs [_ Hb] _ IH]; intros Htrain; [done|].
  apply Forall_cons in Htrain as [Hd Htrain].
  rewrite fmap_cons. simpl. rewrite !filter_cons. simpl.
  destruct b.
  - rewrite (decide_True (P := true = true)) by done.
    rewrite (decide_True (P := passes true false true d)).
    + rewrite !fmap_cons. simpl. f_equal. by apply IH.
    + destruct Hb as [Hb _]. destruct (Hb eq_refl) as (? & ? & ?).
      unfold passes. by repeat split.
  - rewrite (decide_False (P := false = true)) by done.
    rewrite (decide_False (P := passes true false true d)); [by apply IH|].
    intros (Hty & _ & Hex). destruct (Hex eq_refl) as (? & _ & ?).
    destruct Hb as [_ Hb]. enough (false = true) by done.
    apply Hb. repeat split; [done..|]. by apply Hty.
Qed.

(** X9. The columns [get_usecols(numeric_only=True, exclude_skip=True)]
    selects are those [get_is_numerics] flags, when no descriptor is a
    train column: the flags line up with [get_colnames]. *)
Theorem get_is_numerics_selects_usecols (l : list colinfo) :
  Forall has_name_and_type l →
  Forall (λ d, ¬ is_set d "train") l →
  ∃ names bs,
    get_colnames (init l) = Ok names
    ∧ get_is_numerics (init l) = Ok bs
    ∧ length names = length l ∧ length bs = length l
    ∧ get_usecols (init l) true false true
      = Ok (filter (λ nb, nb.2 = true) (zip names bs)).*1.
Proof.
  intros Hl Htrain.
  assert (∃ bs, get_is_numerics (init l) = Ok bs) as [bs Hbs].
  { by apply get_is_numerics_loop_returns. }
  exists (name_of <$> l), bs.
  unfold get_colnames, get_usecols. simpl.
  rewrite get_colnames_loop_spec by by apply Forall_has_name.
  rewrite get_usecols_loop_spec by done. simpl.
  split; [done|]. split; [done|].
  apply get_is_numerics_loop_Ok in Hbs as (rest & -> & Hbs). simpl.
  rewrite length_fmap. split; [done|].
  split; [symmetry; by eapply Forall2_length|]. f_equal.
  by apply usecols_of_flags.
Qed.

Lemma get_is_numerics_selects_usecols_witness :
  let l : list colinfo :=
    [ {["name" := VStr "a"; "type" := VStr "number"]};
      {["name" := VStr "b"; "type" := VStr "string"]};
      {["name" := VStr "c"; "type" := VStr "bool"; "label" := VBool true]};
      {["name" := VStr "d"; "type" := VStr "bool"]} ] in
  Forall has_name_and_type l
  ∧ Forall (λ d, ¬ is_set d "train") l
  ∧ get_is_numerics (init l) = Ok [true; false; false; true]
  ∧ get_usecols (init l) true false true = Ok [VStr "a"; VStr "d"].
Proof.
  intros l.
  assert (Forall has_name_and_type l) as Hl.
  { repeat constructor; vm_compute; eauto. }
  assert (Forall (λ d, ¬ is_set d "train") l) as Ht.
  { repeat constructor; vm_compute; discriminate. }
  split; [exact Hl|]. split; [exact Ht|].
  destruct (get_is_numerics_selects_usecols l Hl Ht)
    as (names & bs & Hn & Hb & _ & _ & Hu).
  assert (bs = [true; false; false; true]) as ->.
  { vm_compute in Hb. by injection Hb as <-. }
  assert (names = [VStr "a"; VStr "b"; VStr "c"; VStr "d"]) as ->.
  { vm_compute in Hn. by injection Hn as <-. }
  split; [exact Hb|]. rewrite Hu. vm_compute. reflexivity.
Defined.

(** *** [validate] and the order of the descriptors *)

Lemma count_set_submseteq k (l' l : list colinfo) :
  l' ⊆+ l → count_set k l' ≤ count_set k l.
Proof.
  intros Hsub. apply submseteq_Permutation in Hsub as [rest Hrest].
  unfold count_set. rewrite Hrest, filter_app, length_app. lia.
Qed.

(** X10. A list that [validate] accepts is still accepted after descriptors are
    removed from it or put in another order. *)
Theorem validate_OK_submseteq (l' l : list colinfo) :
  l' ⊆+ l → validate (init l) = OK → validate (init l') = OK.
Proof.
  intros Hsub. rewrite !validate_OK_valid_columns.
  intros (Hnt & Hkey & Hlab & Hkl).
  pose proof (count_set_submseteq "key" _ _ Hsub).
  pose proof (count_set_submseteq "label" _ _ Hsub).
  repeat split; [|lia..|].
  - rewrite Forall_forall in Hnt |- *. intros d Hd.
    apply Hnt. by eapply elem_of_submseteq.
  - rewrite Forall_forall in Hkl |- *. intros d Hd.
    apply Hkl. by eapply elem_of_submseteq.
Qed.

Lemma validate_OK_submseteq_witness :
  let a : colinfo :=
    {["name" := VStr "a"; "type" := VStr "number"; "key" := VBool true]} in
  let b : colinfo := {["name" := VStr "b"; "type" := VStr "string"]} in
  let c : colinfo :=
    {["name" := VStr "c"; "type" := VStr "bool"; "label" := VBool true]} in
  [c; a] ⊆+ [a; b; c]
  ∧ validate (init [a; b; c]) = OK
  ∧ validate (init [c; a]) = OK.
Proof.
  intros a b c.
  assert ([c; a] ⊆+ [a; b; c]) as Hsub.
  { apply submseteq_cons_l. exists [a; b]. split.
    - apply (Permutation_app_comm [a; b] [c]).
    - apply submseteq_skip, submseteq_nil_l. }
  assert (validate (init [a; b; c]) = OK) as Hv by (vm_compute; reflexivity).
  split; [exact Hsub|]. split; [exact Hv|].
  exact (validate_OK_submseteq [c; a] [a; b; c] Hsub Hv).
Defined.

(** *** The generated key name at the end of its range *)

Lemma auto_keyname_loop_exhausted n i colnames keyname :
  n ≠ 0 →
  (∀ j, (i ≤ j)%N → (j < i + N.of_nat n)%N →
        py_in (VStr (id_format j)) colnames = true) →
  auto_keyname_loop n i colnames keyname
  = Some (id_format (i + N.of_nat n - 1)).
Proof.
  revert i keyname. induction n as [|n IH]; intros i keyname Hn Hall; [done|].
  simpl. rewrite Hall by lia. simpl.
  destruct n as [|n].
  - simpl. do 2 f_equal. lia.
  - rewrite IH; [|done|intros j ??; apply Hall; lia].
    do 2 f_equal. lia.
Qed.

(** The candidates below [n] are all in use, or one of them is the first
    that is not. *)
Lemma first_unused_candidate (l : list colinfo) (n : N) :
  (∀ i, (i < n)%N → is_colname l (candidate i))
  ∨ ∃ j, (j < n)%N ∧ ¬ is_colname l (candidate j)
         ∧ ∀ i, (i < j)%N → is_colname l (candidate i).
Proof.
  induction n as [|n IH] using N.peano_ind.
  { left. intros i Hi. lia. }
  destruct IH as [IH|(j & Hj & Hfree & Hused)].
  - destruct (py_in (VStr (candidate n)) (name_of <$> l)) eqn:Hn.
    + left. intros i Hi. destruct (decide (i = n)) as [->|Hne].
      * by apply py_in_colnames.
      * apply IH. lia.
    + right. exists n. split; [lia|]. split; [|done].
      rewrite <- py_in_colnames. congruence.
  - right. exists j. split; [lia|done].
Qed.

Lemma _setup_auto_keyname_exhausted (l : list colinfo) :
  Forall (λ d, is_Some (d !! "name")) l →
  (∀ j, (j ≤ 99999)%N → is_colname l (candidate j)) →
  _setup_auto_keyname (init l)
  = Ok {| columns := l; _auto_keyname := Some (id_format 99999) |}.
Proof.
  intros Hl Hall. unfold _setup_auto_keyname, get_colnames. simpl.
  rewrite get_colnames_loop_spec by done. simpl.
  assert (py_in (VStr "id") (name_of <$> l) = true) as ->.
  { apply py_in_colnames. apply (Hall 0%N). lia. }
  simpl. rewrite auto_keyname_loop_exhausted.
  - rewrite auto_keyname_fuel. done.
  - pose proof auto_keyname_fuel. lia.
  - intros j Hj1 Hj2. rewrite auto_keyname_fuel in Hj2.
    apply py_in_colnames. rewrite <- candidate_pos by lia.
    apply Hall. lia.
Qed.

Lemma id_format_last : id_format 99999 = "id_99999".
Proof. vm_compute. reflexivity. Qed.

(** X11. When no descriptor declares a key, the name [get_key_colname]
    generates is the name of no column, unless "id" and every "id_1" ...
    "id_99999" is one: then the search ends without a free name and the
    call returns "id_99999", the name of an existing column, without an
    error. *)
Theorem get_key_colname_generated (l : list colinfo) :
  Forall (λ d, is_Some (d !! "name")) l →
  Forall (λ d, ¬ is_set d "key") l →
  ∃ s, get_key_colname (init l)
       = Ok (VStr s, {| columns := l; _auto_keyname := Some s |})
     ∧ (is_colname l s ↔ ∀ j, (j ≤ 99999)%N → is_colname l (candidate j))
     ∧ (is_colname l s → s = "id_99999").
Proof.
  intros Hl Hnokey. rewrite <- id_format_last.
  unfold get_key_colname. simpl.
  rewrite first_flagged_None by done. simpl.
  destruct (first_unused_candidate l 100000)
    as [Hall|(j & Hj & Hfree & Hused)].
  - assert (∀ j, (j ≤ 99999)%N → is_colname l (candidate j)) as Hall'.
    { intros j Hj. apply Hall. lia. }
    exists (id_format 99999).
    rewrite _setup_auto_keyname_exhausted by done. simpl.
    split; [done|]. split; [|done]. split; [done|]. intros _.
    rewrite <- (candidate_pos 99999) by done. by apply Hall'.
  - exists (candidate j).
    rewrite (_setup_auto_keyname_first l j); [|done| |done..].
    + simpl. split; [done|]. split; [|done]. split; [done|].
      intros Hall. exfalso. apply Hfree, Hall. lia.
    + assert (auto_keyname_bound = 99999%N) as -> by done. lia.
Qed.

Import ColumnSpecExamples.

Lemma every_candidate_named :
  Forall (λ d : colinfo, is_Some (d !! "name")) every_candidate.
Proof.
  unfold every_candidate. apply Forall_fmap, Forall_forall. intros j _.
  simpl. rewrite lookup_singleton_eq. by eexists.
Qed.

Lemma every_candidate_no_key :
  Forall (λ d : colinfo, ¬ is_set d "key") every_candidate.
Proof.
  unfold every_candidate. apply Forall_fmap, Forall_forall. intros j _.
  simpl. apply is_set_absent. by apply lookup_singleton_ne.
Qed.

Lemma every_candidate_colname j :
  (j ≤ 99999)%N → is_colname every_candidate (candidate j).
Proof.
  intros Hj. exists {["name" := VStr (candidate j)]}. split.
  - unfold every_candidate. apply list_elem_of_fmap.
    exists (N.to_nat j). split; [by rewrite N2Nat.id|].
    apply elem_of_seq. lia.
  - apply lookup_singleton_eq.
Qed.

(** With the 100000 candidates in use the call returns "id_99999", which
    is the name of a column. *)
Lemma get_key_colname_generated_witness :
  Forall (λ d : colinfo, is_Some (d !! "name")) every_candidate
  ∧ Forall (λ d : colinfo, ¬ is_set d "key") every_candidate
  ∧ get_key_colname (init every_candidate)
    = Ok (VStr "id_99999",
          {| columns := every_candidate;
             _auto_keyname := Some "id_99999" |})
  ∧ is_colname every_candidate "id_99999".
Proof.
  split; [exact every_candidate_named|].
  split; [exact every_candidate_no_key|].
  destruct (get_key_colname_generated every_candidate
              every_candidate_named every_candidate_no_key)
    as (s & Hcall & Hiff & Hlast).
  assert (is_colname every_candidate s) as Hs.
  { apply Hiff. exact every_candidate_colname. }
  pose proof (Hlast Hs) as Heq. subst s. split; [exact Hcall|exact Hs].
Defined.

(** *** [get_dtypes] and [get_converters] *)

(** [==] on the values of a descriptor is equality up to reading a
    boolean as 0 or 1. *)
Local Definition as_key (v : value) : value :=
  match v with
  | VBool b => VInt (if b then 1 else 0)
  | _ => v
  end.

Lemma py_eq_as_key a b : py_eq a b = true ↔ as_key a = as_key b.
Proof.
  destruct a as [|[]|x|x], b as [|[]|y|y]; cbn [py_eq as_key Bool.eqb];
    rewrite ?Z.eqb_eq, ?String.eqb_eq;
    split; intros H; try done; congruence.
Qed.

Lemma py_eq_trans a b c :
  py_eq a b = true → py_eq b c = true → py_eq a c = true.
Proof. rewrite !py_eq_as_key. congruence. Qed.

Lemma py_eq_sym a b : py_eq a b = true → py_eq b a = true.
Proof. rewrite !py_eq_as_key. congruence. Qed.

(** Looking up after an assignment. *)
Lemma dict_get_set {A} (d : list (value * A)) k v k' :
  dict_get py_eq (dict_set py_eq d k v) k'
  = if py_eq k k' then Some v else dict_get py_eq d k'.
Proof.
  unfold dict_get. induction d as [|[k0 v0] d IH]; simpl.
  { by destruct (py_eq k k'). }
  destruct (py_eq k0 k) eqn:H0; simpl.
  - destruct (py_eq k k') eqn:Hk.
    + by rewrite (py_eq_trans _ _ _ H0 Hk).
    + destruct (py_eq k0 k') eqn:H0'; [|done].
      rewrite (py_eq_trans _ _ _ (py_eq_sym _ _ H0) H0') in Hk. done.
  - destruct (py_eq k0 k') eqn:H0'; simpl.
    + destruct (py_eq k k') eqn:Hk; [|done].
      rewrite (py_eq_trans _ _ _ H0' (py_eq_sym _ _ Hk)) in H0. done.
    + apply IH.
Qed.

Local Definition type_of (d : colinfo) : value := default VNone (d !! "type").

Section table.
Context {A : Type} (f : value → option A).

(** What one pass of the loops of [get_dtypes] and [get_converters] does
    to the dictionary, [f] being the table. *)
Local Definition table_step (acc : list (value * A)) (d : colinfo)
  : list (value * A) :=
  match f (type_of d) with
  | Some a => dict_set py_eq acc (name_of d) a
  | None => acc
  end.

Local Definition assigns (n : value) (d : colinfo) : Prop :=
  py_eq (name_of d) n = true ∧ is_Some (f (type_of d)).

Local Instance assigns_dec n d : Decision (assigns n d).
Proof. unfold assigns. apply _. Defined.

Lemma table_fold_clean (l : list colinfo) acc n :
  Forall (λ d, ¬ assigns n d) l →
  dict_get py_eq (foldl table_step acc l) n = dict_get py_eq acc n.
Proof.
  intros Hl. revert acc. induction Hl as [|d l Hd _ IH]; intros acc; [done|].
  simpl. rewrite IH. unfold table_step.
  destruct (f (type_of d)) as [a|] eqn:Hf; [|done].
  rewrite dict_get_set.
  destruct (py_eq (name_of d) n) eqn:Hn; [|done].
  exfalso. apply Hd. split; [done|]. by rewrite Hf.
Qed.

Lemma table_fold_last (l1 l2 : list colinfo) d acc n a :
  py_eq (name_of d) n = true → f (type_of d) = Some a →
  Forall (λ d', ¬ assigns n d') l2 →
  dict_get py_eq (foldl table_step acc (l1 ++ d :: l2)) n = Some a.
Proof.
  intros Hn Hf Hl2. rewrite foldl_app. simpl.
  rewrite table_fold_clean by done. unfold table_step at 1.
  by rewrite Hf, dict_get_set, Hn.
Qed.

(** A list splits at its last descriptor that assigns to [n], if any. *)
Lemma last_assigns_split n (l : list colinfo) :
  Forall (λ d, ¬ assigns n d) l
  ∨ ∃ l1 d l2, l = l1 ++ d :: l2 ∧ assigns n d
               ∧ Forall (λ d', ¬ assigns n d') l2.
Proof.
  induction l as [|d l IH]; [by left|].
  destruct IH as [IH|(l1 & d' & l2 & -> & Hd' & Hl2)].
  - destruct (decide (assigns n d)) as [Hd|Hd].
    + right. by exists [], d, l.
    + left. by constructor.
  - right. by exists (d :: l1), d', l2.
Qed.

Lemma table_fold_lookup (l : list colinfo) n a :
  dict_get py_eq (foldl table_step [] l) n = Some a
  ↔ ∃ l1 d l2, l = l1 ++ d :: l2
       ∧ py_eq (name_of d) n = true ∧ f (type_of d) = Some a
       ∧ Forall (λ d', ¬ assigns n d') l2.
Proof.
  split.
  - intros Hget.
    destruct (last_assigns_split n l)
      as [Hnone|(l1 & d & l2 & -> & [Hn [a' Hf]] & Hl2)].
    + by rewrite table_fold_clean in Hget.
    + rewrite (table_fold_last _ _ _ _ _ _ Hn Hf Hl2) in Hget.
      injection Hget as ->. by exists l1, d, l2.
  - intros (l1 & d & l2 & -> & Hn & Hf & Hl2). by apply table_fold_last.
Qed.

End table.

Lemma getitem_type (d : colinfo) :
  is_Some (d !! "type") → getitem d "type" = Ok (type_of d).
Proof. intros [v Hv]. unfold type_of. rewrite Hv. by apply getitem_Some. Qed.

Lemma get_converters_loop_fold (l : list colinfo) acc :
  Forall has_name_and_type l →
  get_converters_loop l acc
  = Ok (foldl (table_step _get_converter_from_strtype) acc l).
Proof.
  intros Hl. revert acc.
  induction Hl as [|d l [Hn Ht] _ IH]; intros acc; simpl; [done|].
  rewrite getitem_type by done. simpl. unfold table_step at 2.
  destruct (_get_converter_from_strtype (type_of d)); [|apply IH].
  rewrite getitem_name by done. simpl. apply IH.
Qed.

Lemma get_dtypes_loop_fold (l : list colinfo) acc :
  Forall has_name_and_type l →
  get_dtypes_loop l acc
  = Ok (foldl (table_step _get_dtype_from_strtype) acc l).
Proof.
  intros Hl. revert acc.
  induction Hl as [|d l [Hn Ht] _ IH]; intros acc; simpl; [done|].
  rewrite getitem_type by done. simpl. unfold table_step at 2.
  destruct (_get_dtype_from_strtype (type_of d)); [|apply IH].
  rewrite getitem_name by done. simpl. apply IH.
Qed.

Lemma converter_table ty c :
  _get_converter_from_strtype ty = Some c
  ↔ ty = VStr "number" ∧ c = pd_to_numeric
    ∨ ty = VStr "date" ∧ c = pd_to_datetime.
Proof.
  unfold _get_converter_from_strtype, _mkfeat_typestr_to_converter. simpl.
  unfold typestr_eqb.
  destruct (py_eq (VStr "number") ty) eqn:H1.
  { apply py_eq_VStr_l in H1 as ->. simpl. split.
    - intros [= <-]. by left.
    - intros [[_ ->]|[[=] _]]. done. }
  destruct (py_eq (VStr "date") ty) eqn:H2.
  { apply py_eq_VStr_l in H2 as ->. simpl. split.
    - intros [= <-]. by right.
    - intros [[[=] _]|[_ ->]]. done. }
  simpl. split; [done|].
  intros [[-> _]|[-> _]]; simpl in *; congruence.
Qed.

Lemma dtype_table ty :
  _get_dtype_from_strtype ty = Some py_bool ↔ ty = VStr "bool".
Proof.
  unfold _get_dtype_from_strtype, _mkfeat_typestr_to_dtype. simpl.
  unfold typestr_eqb.
  destruct (py_eq (VStr "bool") ty) eqn:H1.
  - apply py_eq_VStr_l in H1 as ->. done.
  - simpl. split; [done|]. intros ->. simpl in H1. congruence.
Qed.

Lemma type_of_Some (d : colinfo) ty :
  is_Some (d !! "type") → type_of d = ty ↔ d !! "type" = Some ty.
Proof. intros [v Hv]. unfold type_of. rewrite Hv. simpl. split; congruence. Qed.

(** X12. [get_converters] maps a name to [pd.to_numeric] or [pd.to_datetime]
    according to the type, "number" or "date", of the last descriptor of
    that name that has one of these types; a name of which no descriptor
    has is no key of the dictionary. *)
Theorem get_converters_last (l : list colinfo) :
  Forall has_name_and_type l →
  ∃ converters, get_converters (init l) = Ok converters
    ∧ ∀ n c, dict_get py_eq converters n = Some c
        ↔ ∃ l1 d l2, l = l1 ++ d :: l2
            ∧ py_eq (name_of d) n = true
            ∧ (d !! "type" = Some (VStr "number") ∧ c = pd_to_numeric
               ∨ d !! "type" = Some (VStr "date") ∧ c = pd_to_datetime)
            ∧ Forall (λ d', py_eq (name_of d') n = true →
                        d' !! "type" ≠ Some (VStr "number")
                        ∧ d' !! "type" ≠ Some (VStr "date")) l2.
Proof.
  intros Hl. unfold get_converters. simpl.
  rewrite get_converters_loop_fold by done. eexists. split; [done|].
  intros n c. rewrite table_fold_lookup.
  assert (∀ d, d ∈ l → ∀ c,
            _get_converter_from_strtype (type_of d) = Some c
            ↔ d !! "type" = Some (VStr "number") ∧ c = pd_to_numeric
              ∨ d !! "type" = Some (VStr "date") ∧ c = pd_to_datetime)
    as Htable.
  { intros d Hd c'. rewrite Forall_forall in Hl. destruct (Hl d Hd) as [_ Ht].
    rewrite converter_table, !(type_of_Some d) by done. done. }
  split.
  - intros (l1 & d & l2 & -> & Hn & Hf & Hl2). exists l1, d, l2.
    split; [done|]. split; [done|]. split.
    + apply Htable; [set_solver|done].
    + rewrite Forall_forall in Hl2 |- *. intros d' Hd' Hn'.
      specialize (Hl2 d' Hd').
      split; intros Hty; apply Hl2; (split; [done|]).
      * exists pd_to_numeric. apply Htable; [set_solver|]. by left.
      * exists pd_to_datetime. apply Htable; [set_solver|]. by right.
  - intros (l1 & d & l2 & -> & Hn & Hc & Hl2). exists l1, d, l2.
    split; [done|]. split; [done|]. split.
    + apply Htable; [set_solver|done].
    + rewrite Forall_forall in Hl2 |- *. intros d' Hd' [Hn' [c' Hc']].
      destruct (Hl2 d' Hd' Hn') as [H1 H2].
      apply Htable in Hc'; [|set_solver].
      destruct Hc' as [[? _]|[? _]]; done.
Qed.

Lemma get_converters_last_witness :
  let l : list colinfo :=
    [ {["name" := VStr "a"; "type" := VStr "number"]};
      {["name" := VStr "b"; "type" := VStr "string"]};
      {["name" := VStr "a"; "type" := VStr "date"]} ] in
  Forall has_name_and_type l
  ∧ ∃ converters, get_converters (init l) = Ok converters
      ∧ dict_get py_eq converters (VStr "a") = Some pd_to_datetime
      ∧ dict_get py_eq converters (VStr "b") = None.
Proof.
  intros l.
  assert (Forall has_name_and_type l) as Hl.
  { repeat constructor; vm_compute; eauto. }
  split; [exact Hl|].
  destruct (get_converters_last l Hl) as (converters & Hcall & Hlook).
  exists converters. split; [exact Hcall|].
  vm_compute in Hcall. injection Hcall as <-.
  split; vm_compute; reflexivity.
Defined.

(** X13. [get_dtypes] has a key for a name exactly when a descriptor of that
    name has the type "bool"; its value is [bool]. *)
Theorem get_dtypes_bool (l : list colinfo) :
  Forall has_name_and_type l →
  ∃ dtypes, get_dtypes (init l) = Ok dtypes
    ∧ ∀ n, dict_get py_eq dtypes n = Some py_bool
        ↔ ∃ d, d ∈ l ∧ py_eq (name_of d) n = true
               ∧ d !! "type" = Some (VStr "bool").
Proof.
  intros Hl. unfold get_dtypes. simpl.
  rewrite get_dtypes_loop_fold by done. eexists. split; [done|].
  intros n. rewrite table_fold_lookup.
  assert (∀ d, d ∈ l →
            _get_dtype_from_strtype (type_of d) = Some py_bool
            ↔ d !! "type" = Some (VStr "bool")) as Htable.
  { intros d Hd. rewrite Forall_forall in Hl. destruct (Hl d Hd) as [_ Ht].
    rewrite dtype_table, (type_of_Some d) by done. done. }
  split.
  - intros (l1 & d & l2 & -> & Hn & Hf & _). exists d.
    split; [set_solver|]. split; [done|]. apply Htable; [set_solver|done].
  - intros (d & Hd & Hn & Hty).
    destruct (last_assigns_split _get_dtype_from_strtype n l)
      as [Hnone|(l1 & d' & l2 & -> & [Hn' [[] Hf]] & Hl2)].
    + exfalso. rewrite Forall_forall in Hnone. apply (Hnone d Hd).
      split; [done|]. exists py_bool. by apply Htable.
    + by exists l1, d', l2.
Qed.

Lemma get_dtypes_bool_witness :
  let l : list colinfo :=
    [ {["name" := VStr "a"; "type" := VStr "number"]};
      {["name" := VStr "b"; "type" := VStr "bool"]} ] in
  Forall has_name_and_type l
  ∧ ∃ dtypes, get_dtypes (init l) = Ok dtypes
      ∧ dict_get py_eq dtypes (VStr "b") = Some py_bool
      ∧ dict_get py_eq dtypes (VStr "a") = None.
Proof.
  intros l.
  assert (Forall has_name_and_type l) as Hl.
  { repeat constructor; vm_compute; eauto. }
  split; [exact Hl|].
  destruct (get_dtypes_bool l Hl) as (dtypes & Hcall & Hlook).
  exists dtypes. split; [exact Hcall|].
  vm_compute in Hcall. injection Hcall as <-.
  split; vm_compute; reflexivity.
Defined.

(** *** What [validate] reads *)

(** The loop body of [validate] in terms of the four things it depends
    on. *)
Lemma validate_body_reads (d : colinfo) hk hl :
  validate_body d hk hl
  = if negb (contains d "name") || negb (contains d "type")
    then inl ERR_COLUMN_HAS_NO_NAME_OR_TYPE
    else if flag d "key" && hk then inl ERR_COLUMN_MULTI_KEY
    else if flag d "key" && flag d "label" then inl ERR_COLUMN_KEY_AND_LABEL
    else if flag d "label" && hl then inl ERR_COLUMN_MULTI_LABEL
    else inr (flag d "key" || hk, flag d "label" || hl).
Proof.
  unfold validate_body.
  destruct (negb (contains d "name") || negb (contains d "type")); [done|].
  pose proof (flag_contains d "key") as Hk.
  pose proof (flag_contains d "label") as Hl.
  destruct (flag d "key"), (flag d "label");
    rewrite ?Hk, ?Hl by done; simpl;
    destruct (contains d "key"), (contains d "label"), hk, hl; done.
Qed.

(** Two descriptors that [validate] cannot tell apart. *)
Local Definition same_for_validate (d d' : colinfo) : Prop :=
  (is_Some (d !! "name") ↔ is_Some (d' !! "name"))
  ∧ (is_Some (d !! "type") ↔ is_Some (d' !! "type"))
  ∧ (is_set d "key" ↔ is_set d' "key")
  ∧ (is_set d "label" ↔ is_set d' "label").

Lemma validate_body_same (d d' : colinfo) hk hl :
  same_for_validate d d' → validate_body d hk hl = validate_body d' hk hl.
Proof.
  intros (Hn & Ht & Hk & Hl). rewrite !validate_body_reads.
  assert (contains d "name" = contains d' "name") as ->.
  { apply eq_true_iff_eq. by rewrite !contains_is_Some. }
  assert (contains d "type" = contains d' "type") as ->.
  { apply eq_true_iff_eq. by rewrite !contains_is_Some. }
  assert (flag d "key" = flag d' "key") as ->.
  { by apply eq_true_iff_eq. }
  assert (flag d "label" = flag d' "label") as ->.
  { by apply eq_true_iff_eq. }
  done.
Qed.

(** X14. [validate] depends only on whether each descriptor has a name and a
    type and on the truth of its key and label: the values of name and
    type, the train and bypass flags and every other field never change
    its result. *)
Theorem validate_reads_four_fields (l l' : list colinfo) :
  Forall2 (λ d d',
    (is_Some (d !! "name") ↔ is_Some (d' !! "name"))
    ∧ (is_Some (d !! "type") ↔ is_Some (d' !! "type"))
    ∧ (is_set d "key" ↔ is_set d' "key")
    ∧ (is_set d "label" ↔ is_set d' "label")) l l' →
  validate (init l) = validate (init l').
Proof.
  intros Hll. unfold validate. simpl.
  generalize false at 1 3. generalize false.
  induction Hll as [|d d' l l' Hd _ IH]; intros hl hk; simpl; [done|].
  rewrite (validate_body_same d d' hk hl Hd).
  destruct (validate_body d' hk hl) as [e|[hk' hl']]; [done|apply IH].
Qed.

Lemma validate_reads_four_fields_witness :
  let l : list colinfo :=
    [ {["name" := VStr "a"; "type" := VStr "number"; "key" := VBool true]};
      {["name" := VStr "b"; "type" := VStr "string"; "label" := VInt 1]} ]
  in
  let l' : list colinfo :=
    [ {["name" := VStr "x"; "type" := VStr "date"; "key" := VStr "yes";
        "train" := VBool true]};
      {["name" := VNone; "type" := VInt 0; "label" := VBool true;
        "key" := VBool false; "bypass" := VBool true]} ]
  in
  validate (init l) = OK ∧ validate (init l') = OK.
Proof.
  intros l l'.
  assert (validate (init l) = OK) as Hv by (vm_compute; reflexivity).
  split; [exact Hv|].
  rewrite <- (validate_reads_four_fields l l'); [exact Hv|].
  repeat constructor; vm_compute; try (intros; by eauto);
    intros H; discriminate H.
Defined.

(** *** [get_key_colname] with a declared key *)

(** X15. When a descriptor declares a key, [get_key_colname] returns the name
    of the first such descriptor, whatever the other descriptors hold, and
    leaves the instance as it was; it fails ([KeyError('name')]) only when
    that descriptor has no name. *)
Theorem get_key_colname_declared (l1 l2 : list colinfo) (d : colinfo) :
  Forall (λ d', ¬ is_set d' "key") l1 → is_set d "key" →
  get_key_colname (init (l1 ++ d :: l2))
  = (name ← getitem d "name"; Ok (name, init (l1 ++ d :: l2))).
Proof.
  intros Hl1 Hd. unfold get_key_colname. simpl.
  rewrite first_flagged_first by done.
  by destruct (getitem d "name").
Qed.

Lemma get_key_colname_declared_witness :
  let nameless : colinfo := {["type" := VStr "number"]} in
  let key : colinfo :=
    {["name" := VStr "k"; "type" := VStr "number"; "key" := VBool true]} in
  Forall (λ d', ¬ is_set d' "key") [nameless]
  ∧ is_set key "key"
  ∧ get_key_colname (init [nameless; key; nameless])
    = Ok (VStr "k", init [nameless; key; nameless]).
Proof.
  intros nameless key.
  assert (Forall (λ d', ¬ is_set d' "key") [nameless]) as H1.
  { repeat constructor. vm_compute. discriminate. }
  assert (is_set key "key") as H2 by (vm_compute; reflexivity).
  split; [exact H1|]. split; [exact H2|].
  etrans; [exact (get_key_colname_declared [nameless] [nameless] key H1 H2)|].
  vm_compute. reflexivity.
Defined.

End ColumnSpecExtra.

(** ** More about the selection filters *)

Module SelectionExtra.
Import Selection SelectionSpec SelectionProps.

(** *** Floats that are not numbers *)

Lemma SFeqb_self_nan x : SFeqb x x = false → x = S754_nan.
Proof.
  unfold SFeqb. destruct x as [s|s| |s m e]; simpl; try done.
  - by destruct s.
  - destruct s; rewrite Z.compare_refl, Pos.compare_cont_refl; done.
Qed.

Lemma is_nan_Prim2SF (t : float) :
  PrimFloat.is_nan t = true → Prim2SF t = S754_nan.
Proof.
  unfold PrimFloat.is_nan. rewrite negb_true_iff, FloatAxioms.eqb_spec.
  apply SFeqb_self_nan.
Qed.

Lemma float_ltb_nan_l (t x : float) :
  PrimFloat.is_nan t = true → (t <? x)%float = false.
Proof.
  intros Ht. rewrite FloatAxioms.ltb_spec, (is_nan_Prim2SF t Ht). done.
Qed.

Lemma float_ltb_nan_r (t x : float) :
  PrimFloat.is_nan t = true → (x <? t)%float = false.
Proof.
  intros Ht. rewrite FloatAxioms.ltb_spec, (is_nan_Prim2SF t Ht).
  by destruct (Prim2SF x) as [[]|[]| |[]].
Qed.

Lemma float_leb_nan_l (t x : float) :
  PrimFloat.is_nan t = true → (t <=? x)%float = false.
Proof.
  intros Ht. rewrite FloatAxioms.leb_spec, (is_nan_Prim2SF t Ht). done.
Qed.

Lemma filter_none {A} (P : A → Prop) `{∀ x, Decision (P x)} (l : list A) :
  (∀ x, x ∈ l → ¬ P x) → filter P l = [].
Proof.
  induction l as [|x l IH]; intros Hl; [done|].
  rewrite filter_cons_False by (apply Hl; set_solver).
  apply IH. intros y Hy. apply Hl. set_solver.
Qed.

(** X16. A threshold that is not a number passes the range check of both
    filters, since no comparison with it holds; and for the same reason
    nothing is selected: [find_highly_null_features] returns the empty
    list, and so does [find_highly_correlated_features] whenever it
    returns. *)
Theorem nan_threshold_selects_nothing {V : Type} `{EqDecision V} (t : float) :
  PrimFloat.is_nan t = true →
  (∀ fm : pd.DataFrame V, find_highly_null_features fm t = Ok [])
  ∧ (∀ corr set_iter (fm : pd.DataFrame V) check excl pairs,
       find_highly_correlated_features corr set_iter fm t check excl
       = Ok pairs → pairs = []).
Proof.
  intros Ht. split.
  - intros fm. unfold find_highly_null_features.
    rewrite (float_ltb_nan_l t 0 Ht), (float_ltb_nan_r t 1 Ht). cbv zeta.
    simpl. rewrite filter_none; [done|].
    intros kv _. by rewrite (float_ltb_nan_l t _ Ht).
  - intros corr set_iter fm check excl pairs.
    unfold find_highly_correlated_features.
    rewrite (float_ltb_nan_l t 0 Ht), (float_ltb_nan_r t 1 Ht). simpl.
    destruct (frame_to_check set_iter fm check excl) as [f|]; simpl;
      [|done].
    rewrite filter_none; [by intros [= <-]|].
    intros kv _. by rewrite (float_leb_nan_l t _ Ht).
Qed.

Lemma nan_threshold_selects_nothing_witness :
  PrimFloat.is_nan nan = true
  ∧ find_highly_null_features
      (frame SelectionExamples.partly_missing) nan = Ok [].
Proof.
  assert (PrimFloat.is_nan nan = true) as Ht by (vm_compute; reflexivity).
  split; [exact Ht|].
  destruct (nan_threshold_selects_nothing (V := Z) nan Ht) as [Hnull _].
  exact (Hnull (frame SelectionExamples.partly_missing)).
Defined.

Section frames.
Context {V : Type} `{EqDecision V}.

(** *** Columns without rows *)

Lemma missing_fraction_no_rows (s : pd.Series V) :
  pd.values s = [] → PrimFloat.is_nan (missing_fraction s) = true.
Proof.
  intros Hs. unfold missing_fraction, non_missing. rewrite Hs.
  vm_compute. reflexivity.
Qed.

(** X17. The mean of no flags is not a number, which no threshold is below:
    [find_highly_null_features] never returns a column without rows. *)
Theorem find_highly_null_features_no_rows (fm : FeatureMatrix V)
    (t : float) (names : list string) (c : string) (s : pd.Series V) :
  find_highly_null_features fm t = Ok names →
  (c, s) ∈ frame fm → pd.values s = [] → c ∉ names.
Proof.
  intros Hcall Hin Hs Hc.
  destruct ((t <? 0)%float || (1 <? t)%float) eqn:Ht.
  { unfold find_highly_null_features in Hcall. by rewrite Ht in Hcall. }
  rewrite find_highly_null_features_Ok in Hcall by done.
  injection Hcall as <-. unfold pd.columns in Hc.
  apply list_elem_of_fmap in Hc as ([c' s'] & -> & Hc). simpl in *.
  apply list_elem_of_filter in Hc as [Hlt Hin']. simpl in Hlt.
  assert (s' = s) as ->.
  { pose proof (getitem_elem _ _ _ (frame_labels fm) Hin) as H1.
    pose proof (getitem_elem _ _ _ (frame_labels fm) Hin') as H2.
    congruence. }
  rewrite float_ltb_nan_r in Hlt; [done|]. by apply missing_fraction_no_rows.
Qed.

(** *** [remove_low_information_features], again and with
    [find_single_value_features] *)

Lemma remove_low_information_features_Ok {F} (get_name : F → string)
    (fm : FeatureMatrix V) (r : loc) (features : option (list F))
    (σ : store V) :
  σ !! r = Some (frame fm) →
  remove_low_information_features get_name r features σ
  = Ok ((fresh (dom σ),
         filter (λ f, get_name f
                      ∈ pd.columns (filter (λ kv, informative kv.2) (frame fm)))
           <$> features),
        <[fresh (dom σ) := filter (λ kv, informative kv.2) (frame fm)]> σ).
Proof.
  intros Hr. unfold remove_low_information_features. rewrite Hr.
  rewrite keep_informative. simpl.
  rewrite getitem_list_sub; [|apply frame_labels|apply list_subseteq_filter].
  simpl. by destruct features.
Qed.

(** X18. Applying [remove_low_information_features] to its own result changes
    nothing more: the second call returns a frame with the columns of the
    first result, and the same list of features. *)
Theorem remove_low_information_features_idempotent {F}
    (get_name : F → string) (fm : FeatureMatrix V) (r : loc)
    (features : option (list F)) (σ : store V) :
  σ !! r = Some (frame fm) →
  ∃ r1 features1 kept σ1,
    remove_low_information_features get_name r features σ
    = Ok ((r1, features1), σ1)
    ∧ σ1 !! r1 = Some kept
    ∧ ∃ r2, remove_low_information_features get_name r1 features1 σ1
            = Ok ((r2, features1), <[r2 := kept]> σ1).
Proof.
  intros Hr.
  set (kept := filter (λ kv : string * pd.Series V, informative kv.2)
                      (frame fm)).
  assert (NoDup (pd.columns kept)) as Hnd.
  { apply columns_filter_NoDup, frame_labels. }
  set (σ1 := <[fresh (dom σ) := kept]> σ).
  eexists (fresh (dom σ)), _, kept, σ1.
  split; [by apply remove_low_information_features_Ok|].
  assert (σ1 !! fresh (dom σ) = Some kept) as Hr1.
  { apply lookup_insert_eq. }
  split; [done|]. exists (fresh (dom σ1)).
  rewrite (remove_low_information_features_Ok get_name
             (mkFeatureMatrix kept Hnd) _ _ σ1 Hr1). simpl.
  assert (filter (λ kv : string * pd.Series V, informative kv.2) kept = kept)
    as ->.
  { unfold kept. rewrite list_filter_filter. apply list_filter_iff.
    intros kv. tauto. }
  assert (∀ fs : list F,
            filter (λ f, get_name f ∈ pd.columns kept)
                   (filter (λ f, get_name f ∈ pd.columns kept) fs)
            = filter (λ f, get_name f ∈ pd.columns kept) fs) as Hfs.
  { intros fs. rewrite list_filter_filter. apply list_filter_iff.
    intros f. tauto. }
  destruct features as [features|]; simpl; [|done]. by rewrite Hfs.
Qed.

Lemma find_single_value_features_columns (fm : FeatureMatrix V) (b : bool) :
  find_single_value_features fm b
  = pd.columns (filter (λ kv, distinct_count b kv.2 ≤ 1) (frame fm)).
Proof.
  unfold find_single_value_features. cbv zeta.
  rewrite to_dict_columns by apply frame_labels.
  etrans; [exact (filter_entries_columns (frame fm)
                    (pd.nunique (negb b)) (λ n, n ≤ 1))|].
  f_equal. apply list_filter_iff. intros kv.
  by rewrite nunique_distinct_count.
Qed.

Lemma elem_of_columns_filter (fm : FeatureMatrix V)
    (P : string * pd.Series V → Prop) `{∀ kv, Decision (P kv)} c s :
  (c, s) ∈ frame fm →
  c ∈ pd.columns (filter P (frame fm)) ↔ P (c, s).
Proof.
  intros Hin. unfold pd.columns. rewrite list_elem_of_fmap. split.
  - intros ([c' s'] & -> & Hc). simpl in *.
    apply list_elem_of_filter in Hc as [HP Hin'].
    assert (s' = s) as ->; [|done].
    pose proof (getitem_elem _ _ _ (frame_labels fm) Hin) as H1.
    pose proof (getitem_elem _ _ _ (frame_labels fm) Hin') as H2.
    congruence.
  - intros HP. exists (c, s). split; [done|]. by apply list_elem_of_filter.
Qed.

Lemma distinct_count_le (s : pd.Series V) :
  distinct_count false s ≤ distinct_count true s.
Proof. unfold distinct_count. simpl. lia. Qed.

Lemma distinct_count_informative (s : pd.Series V) :
  1 < distinct_count false s → informative s.
Proof.
  intros Hs. split; [pose proof (distinct_count_le s); lia|].
  intros Hnil. unfold distinct_count in Hs. rewrite Hnil in Hs.
  simpl in Hs. lia.
Qed.

(** X19. The three views of a column without information fit together: a
    column that [find_single_value_features] reports when the missing
    value counts as a value is dropped by
    [remove_low_information_features]; a column it does not report when
    the missing value is left out is kept; and counting the missing value
    can only take columns off its report. *)
Theorem single_value_and_low_information {F} (get_name : F → string)
    (fm : FeatureMatrix V) (r : loc) (features : option (list F))
    (σ : store V) :
  σ !! r = Some (frame fm) →
  ∃ r' features' kept,
    remove_low_information_features get_name r features σ
    = Ok ((r', features'), <[r' := kept]> σ)
    ∧ (∀ c, c ∈ find_single_value_features fm true → c ∉ pd.columns kept)
    ∧ (∀ c, c ∈ pd.columns fm → c ∉ find_single_value_features fm false →
         c ∈ pd.columns kept)
    ∧ (∀ c, c ∈ find_single_value_features fm true →
         c ∈ find_single_value_features fm false).
Proof.
  intros Hr.
  exists (fresh (dom σ)),
    (filter (λ f, get_name f
                  ∈ pd.columns (filter (λ kv, informative kv.2) (frame fm)))
       <$> features),
    (filter (λ kv, informative kv.2) (frame fm)).
  split; [by apply remove_low_information_features_Ok|].
  rewrite !find_single_value_features_columns.
  assert (∀ c, c ∈ pd.columns (filter (λ kv, distinct_count true kv.2 ≤ 1)
                                      (frame fm)) →
            ∃ s, (c, s) ∈ frame fm ∧ distinct_count true s ≤ 1) as Htrue.
  { intros c Hc. unfold pd.columns in Hc.
    apply list_elem_of_fmap in Hc as ([c' s] & -> & Hc).
    apply list_elem_of_filter in Hc as [Hle Hin]. by exists s. }
  split; [|split].
  - intros c Hc Hkept. destruct (Htrue c Hc) as (s & Hin & Hle).
    rewrite (elem_of_columns_filter fm (λ kv, informative kv.2) c s Hin)
      in Hkept.
    destruct Hkept as [Hlt _]. simpl in Hlt. lia.
  - intros c Hc Hfalse. unfold pd.columns in Hc.
    apply list_elem_of_fmap in Hc as ([c' s] & -> & Hin). simpl in *.
    apply (elem_of_columns_filter fm (λ kv, informative kv.2) c' s Hin).
    simpl. apply distinct_count_informative.
    rewrite (elem_of_columns_filter fm
               (λ kv, distinct_count false kv.2 ≤ 1) c' s Hin) in Hfalse.
    simpl in Hfalse. lia.
  - intros c Hc. destruct (Htrue c Hc) as (s & Hin & Hle).
    apply (elem_of_columns_filter fm
             (λ kv, distinct_count false kv.2 ≤ 1) c s Hin). simpl.
    pose proof (distinct_count_le s). lia.
Qed.

End frames.

Import SelectionExamples.

(** On a matrix without rows nothing is highly null, whatever the
    threshold. *)
Lemma find_highly_null_features_no_rows_witness :
  find_highly_null_features no_rows 0 = Ok []
  ∧ ("x", column "int64" []) ∈ frame no_rows
  ∧ ("x" ∉ @nil string).
Proof.
  assert (find_highly_null_features no_rows 0 = Ok []) as Hcall.
  { vm_compute. reflexivity. }
  assert (("x", column "int64" []) ∈ frame no_rows) as Hin.
  { apply list_elem_of_here. }
  split; [exact Hcall|]. split; [exact Hin|].
  exact (find_highly_null_features_no_rows no_rows 0 [] "x"
           (column "int64" []) Hcall Hin eq_refl).
Defined.

Lemma remove_low_information_features_idempotent_witness :
  let σ : store Z := {[ 1%positive := frame constant_and_varying ]} in
  σ !! 1%positive = Some (frame constant_and_varying)
  ∧ ∃ r1 features1 kept σ1,
      remove_low_information_features id 1%positive
        (Some ["constant"; "varying"]) σ
      = Ok ((r1, features1), σ1)
      ∧ σ1 !! r1 = Some kept
      ∧ ∃ r2, remove_low_information_features id r1 features1 σ1
              = Ok ((r2, features1), <[r2 := kept]> σ1).
Proof.
  intros σ.
  assert (σ !! 1%positive = Some (frame constant_and_varying)) as Hr.
  { vm_compute. reflexivity. }
  split; [exact Hr|].
  exact (remove_low_information_features_idempotent id constant_and_varying
           1%positive (Some ["constant"; "varying"]) σ Hr).
Defined.

Lemma single_value_and_low_information_witness :
  let σ : store Z := {[ 1%positive := frame constant_and_varying ]} in
  σ !! 1%positive = Some (frame constant_and_varying)
  ∧ find_single_value_features constant_and_varying true = ["constant"]
  ∧ ∃ r' kept,
      remove_low_information_features id 1%positive
        (None : option (list string)) σ
      = Ok ((r', None), <[r' := kept]> σ)
      ∧ ("constant" ∉ pd.columns kept)
      ∧ ("varying" ∈ pd.columns kept).
Proof.
  intros σ.
  assert (σ !! 1%positive = Some (frame constant_and_varying)) as Hr.
  { vm_compute. reflexivity. }
  split; [exact Hr|].
  assert (find_single_value_features constant_and_varying true
          = ["constant"]) as Htrue by (vm_compute; reflexivity).
  assert (find_single_value_features constant_and_varying false
          = ["constant"]) as Hfalse by (vm_compute; reflexivity).
  split; [exact Htrue|].
  destruct (single_value_and_low_information id constant_and_varying
              1%positive (None : option (list string)) σ Hr)
    as (r' & features' & kept & Hcall & Hdrop & Hkeep & _).
  exists r', kept.
  assert (features' = None) as ->.
  { unfold remove_low_information_features in Hcall. rewrite Hr in Hcall.
    vm_compute in Hcall. by injection Hcall as _ <- _. }
  split; [exact Hcall|]. split.
  - apply Hdrop. rewrite Htrue. apply list_elem_of_here.
  - apply Hkeep.
    + vm_compute. apply list_elem_of_further, list_elem_of_here.
    + rewrite Hfalse. intros Hin.
      apply list_elem_of_singleton in Hin. discriminate.
Defined.

(** *** [find_highly_correlated_features]: failures and the shape of the
    result *)

Section correlated.
Context {V : Type} `{EqDecision V}.
Context (corr : pd.Series V → pd.Series V → float).

Lemma pd_getitem_Raise (df : pd.DataFrame V) c e :
  pd.getitem df c = Raise e → e = KeyError c ∧ c ∉ pd.columns df.
Proof.
  unfold pd.getitem, pd.columns.
  induction df as [|[c' s'] df IH]; simpl.
  { intros [= <-]. split; [done|]. apply not_elem_of_nil. }
  destruct (String.eqb c' c) eqn:Heq; simpl; [done|].
  intros He. destruct (IH He) as [-> Hc]. split; [done|].
  apply String.eqb_neq in Heq. apply not_elem_of_cons.
  split; [congruence|done].
Qed.

Lemma pd_getitem_Ok (df : pd.DataFrame V) c s :
  pd.getitem df c = Ok s → c ∈ pd.columns df.
Proof.
  unfold pd.getitem, pd.columns.
  induction df as [|[c' s'] df IH]; simpl; [done|].
  destruct (String.eqb c' c) eqn:Heq; simpl.
  - apply String.eqb_eq in Heq as ->. intros _. apply list_elem_of_here.
  - intros Hs. apply list_elem_of_further. by apply IH.
Qed.

Lemma getitem_list_Raise (df : pd.DataFrame V) labels e :
  pd.getitem_list df labels = Raise e →
  ∃ c, e = KeyError c ∧ c ∈ labels ∧ c ∉ pd.columns df.
Proof.
  induction labels as [|c labels IH]; simpl; [done|].
  destruct (pd.getitem df c) as [s|e'] eqn:Hc; simpl.
  - destruct (pd.getitem_list df labels) as [sel|e'']; simpl; [done|].
    intros [= <-]. destruct (IH eq_refl) as (c' & -> & Hin & Hout).
    exists c'. split; [done|]. split; [by apply list_elem_of_further|done].
  - intros [= <-]. apply pd_getitem_Raise in Hc as [-> Hout].
    exists c. split; [done|]. split; [apply list_elem_of_here|done].
Qed.

Lemma getitem_list_Ok_labels (df : pd.DataFrame V) labels sel :
  pd.getitem_list df labels = Ok sel → labels ⊆ pd.columns df.
Proof.
  revert sel. induction labels as [|c labels IH]; intros sel; simpl.
  { intros _. apply list_subseteq_nil. }
  destruct (pd.getitem df c) as [s|] eqn:Hc; simpl; [|done].
  destruct (pd.getitem_list df labels) as [sel'|]; simpl; [|done].
  intros _ c' Hc'. apply elem_of_cons in Hc' as [->|Hc'].
  - by eapply pd_getitem_Ok.
  - by eapply IH.
Qed.

Lemma getitem_list_returns (df : pd.DataFrame V) labels :
  labels ⊆ pd.columns df → ∃ sel, pd.getitem_list df labels = Ok sel.
Proof.
  induction labels as [|c labels IH]; intros Hsub; simpl; [by eexists|].
  destruct (pd.getitem df c) as [s|e] eqn:Hc.
  - destruct IH as [sel ->]; [set_solver|]. simpl. by eexists.
  - apply pd_getitem_Raise in Hc as [_ Hc]. destruct Hc. set_solver.
Qed.

Lemma frame_to_check_names set_iter (fm : pd.DataFrame V)
    (check excl : option (gset string)) :
  frame_to_check set_iter fm check excl
  = (selected ← pd.getitem_list fm
                   (set_iter (names_to_check fm check excl));
     Ok (pd.select_dtypes numeric_and_boolean_dtypes selected)).
Proof.
  unfold frame_to_check.
  set (X := match excl with
            | Some e =>
                filter (λ col, col ∉ e)
                  match check with
                  | Some chk => chk
                  | None => list_to_set (pd.columns fm)
                  end
            | None =>
                match check with
                | Some chk => chk
                | None => list_to_set (pd.columns fm)
                end
            end).
  assert (X = names_to_check fm check excl) as ->; [|done].
  unfold X, names_to_check. apply set_eq. intros c.
  destruct excl as [e|], check as [chk|]; simpl;
    rewrite ?elem_of_filter, elem_of_difference; set_solver.
Qed.

Section iteration.
Context (set_iter : gset string → list string).
Hypothesis set_iter_elements : ∀ X, set_iter X ≡ₚ elements X.

Lemma set_iter_subseteq (X : gset string) (l : list string) :
  set_iter X ⊆ l ↔ X ⊆ list_to_set l.
Proof.
  split.
  - intros Hsub c Hc. apply elem_of_list_to_set, Hsub.
    rewrite set_iter_elements. by apply elem_of_elements.
  - intros Hsub c Hc. rewrite set_iter_elements in Hc.
    apply elem_of_elements, Hsub in Hc. by apply elem_of_list_to_set in Hc.
Qed.

(** X20. With a threshold in [0,1], [find_highly_correlated_features] returns
    exactly when every name to check ([features_to_check] minus
    [features_to_exclude]) is a column of the matrix; otherwise it fails
    with the [KeyError] of such a name that is no column. Names that are
    excluded are never looked up, and with the default [features_to_check]
    the call always returns. *)
Theorem find_highly_correlated_features_KeyError (fm : pd.DataFrame V)
    (t : float) (check excl : option (gset string)) :
  in_unit_interval t →
  (returns (find_highly_correlated_features corr set_iter fm t check excl)
   ↔ names_to_check fm check excl ⊆ list_to_set (pd.columns fm))
  ∧ (∀ e, find_highly_correlated_features corr set_iter fm t check excl
          = Raise e →
       ∃ c, e = KeyError c ∧ c ∈ names_to_check fm check excl
            ∧ c ∉ pd.columns fm)
  ∧ (check = None →
     returns (find_highly_correlated_features corr set_iter fm t None excl)).
Proof.
  intros Ht. unfold find_highly_correlated_features.
  rewrite (in_unit_interval_check t Ht), !frame_to_check_names.
  assert (names_to_check fm check excl ⊆ list_to_set (pd.columns fm) →
          returns
            (fm_to_check ←
               (selected ← pd.getitem_list fm
                             (set_iter (names_to_check fm check excl));
                Ok (pd.select_dtypes numeric_and_boolean_dtypes selected));
             Ok (map fst
                   (filter (λ kv, (t <=? kv.2)%float = true)
                      (corr_outer corr fm_to_check fm_to_check [])))))
    as Hret.
  { intros Hsub. apply set_iter_subseteq in Hsub.
    destruct (getitem_list_returns fm _ Hsub) as [sel ->]. simpl.
    by eexists. }
  split; [split; [|exact Hret]|split].
  - intros [pairs Hcall].
    destruct (pd.getitem_list fm (set_iter (names_to_check fm check excl)))
      as [sel|] eqn:Hsel; [|done].
    apply set_iter_subseteq. by eapply getitem_list_Ok_labels.
  - intros e.
    destruct (pd.getitem_list fm (set_iter (names_to_check fm check excl)))
      as [sel|e'] eqn:Hsel; simpl; [done|].
    intros [= <-]. apply getitem_list_Raise in Hsel as (c & -> & Hin & Hout).
    exists c. split; [done|]. split; [|done].
    rewrite set_iter_elements in Hin. by apply elem_of_elements in Hin.
  - intros ->. apply Hret.
    unfold names_to_check. simpl. set_solver.
Qed.

(** What a successful call computed: the frame of the columns considered
    and the table of their correlations. *)
Lemma find_highly_correlated_features_Ok (fm : FeatureMatrix V) (t : float)
    (check excl : option (gset string)) pairs :
  find_highly_correlated_features corr set_iter fm t check excl = Ok pairs →
  (t <? 0)%float || (1 <? t)%float = false
  ∧ names_to_check fm check excl ⊆ list_to_set (pd.columns fm)
  ∧ ∃ f, frame_to_check set_iter fm check excl = Ok f
      ∧ NoDup (pd.columns f)
      ∧ (∀ c s, (c, s) ∈ f ↔ considered fm check excl c s)
      ∧ pairs = (filter (λ e, (t <=? e.2)%float = true)
                        (corr_outer corr f f [])).*1.
Proof.
  unfold find_highly_correlated_features.
  destruct ((t <? 0)%float || (1 <? t)%float); [done|]. intros Hcall.
  split; [done|].
  assert (names_to_check fm check excl ⊆ list_to_set (pd.columns fm))
    as Hsub.
  { rewrite frame_to_check_names in Hcall.
    destruct (pd.getitem_list fm (set_iter (names_to_check fm check excl)))
      as [sel|] eqn:Hsel; [|done].
    apply set_iter_subseteq. by eapply getitem_list_Ok_labels. }
  split; [done|].
  destruct (frame_to_check_considered corr set_iter set_iter_elements
              fm check excl Hsub) as (f & Hf & Hnd & Hcons).
  exists f. rewrite Hf in Hcall. simpl in Hcall. injection Hcall as <-.
  done.
Qed.

Lemma sorted_pair_lt a b x y :
  a ≠ b → sorted_pair a b = (x, y) → String.ltb x y = true.
Proof.
  intros Hne. unfold sorted_pair.
  destruct (String.ltb b a) eqn:Hba; intros [= <- <-]; [done|].
  unfold String.ltb in *. rewrite (String.compare_antisym a b).
  destruct (String.compare b a) eqn:Hc; simpl; try done.
  apply String.compare_eq_iff in Hc. congruence.
Qed.

Lemma string_ltb_asym a b :
  String.ltb a b = true → String.ltb b a = false.
Proof.
  unfold String.ltb. rewrite (String.compare_antisym b a).
  by destruct (String.compare a b).
Qed.

Lemma sorted_pair_inj a b a' b' :
  sorted_pair a' b' = sorted_pair a b →
  (a' = a ∧ b' = b) ∨ (a' = b ∧ b' = a).
Proof.
  unfold sorted_pair.
  destruct (String.ltb b' a'), (String.ltb b a); intros [= -> ->]; tauto.
Qed.

(** The unordered pairs the call is to return. *)
Local Definition correlated (fm : pd.DataFrame V) (t : float)
    (check excl : option (gset string)) (p : string * string) : Prop :=
  ∃ a sa b sb,
    considered fm check excl a sa ∧ considered fm check excl b sb
    ∧ a ≠ b ∧ p = sorted_pair a b
    ∧ (t <=? PrimFloat.abs (corr sa sb))%float = true.

Lemma pairs_correlated (fm : FeatureMatrix V) (t : float)
    (check excl : option (gset string)) pairs :
  find_highly_correlated_features corr set_iter fm t check excl = Ok pairs →
  NoDup pairs
  ∧ (∀ p, p ∈ pairs → correlated fm t check excl p)
  ∧ ((∀ sa sb, corr sa sb = corr sb sa) →
     ∀ p, correlated fm t check excl p → p ∈ pairs).
Proof.
  intros Hcall.
  apply find_highly_correlated_features_Ok in Hcall
    as (_ & _ & f & _ & Hnd & Hcons & ->).
  destruct (corr_outer_table corr f Hnd) as (Hkeys & Hent & Hall).
  rewrite Forall_forall in Hent.
  split; [|split].
  - eapply sublist_NoDup; [exact Hkeys|].
    apply fmap_sublist, sublist_filter.
  - intros p Hp. apply list_elem_of_fmap in Hp as (e & -> & He).
    apply list_elem_of_filter in He as [Hle He].
    destruct (Hent e He) as (i & j & a & sa & b & sb & _ & Hi & Hj & Hne & ->).
    exists a, sa, b, sb.
    split; [by eapply Hcons, list_elem_of_lookup_2|].
    split; [by eapply Hcons, list_elem_of_lookup_2|]. done.
  - intros Hsym p (a & sa & b & sb & Ha & Hb & Hne & -> & Hle).
    apply Hcons in Ha, Hb.
    assert (sorted_pair a b ∈ (corr_outer corr f f []).*1) as Hin.
    { apply Hall; [| |done]; unfold pd.columns; apply list_elem_of_fmap.
      - by exists (a, sa).
      - by exists (b, sb). }
    apply list_elem_of_fmap in Hin as (e & Heq & He).
    apply list_elem_of_fmap. exists e. split; [done|].
    apply list_elem_of_filter. split; [|done].
    destruct (Hent e He)
      as (i & j & a' & sa' & b' & sb' & _ & Hi & Hj & _ & ->).
    apply list_elem_of_lookup_2 in Hi, Hj. simpl in *.
    assert (∀ c s s', (c, s) ∈ f → (c, s') ∈ f → s = s') as Huniq.
    { intros c s s' H1 H2.
      pose proof (getitem_elem _ _ _ Hnd H1).
      pose proof (getitem_elem _ _ _ Hnd H2). congruence. }
    destruct (sorted_pair_inj _ _ _ _ (eq_sym Heq)) as [[-> ->]|[-> ->]].
    + by rewrite (Huniq _ _ _ Hi Ha), (Huniq _ _ _ Hj Hb).
    + by rewrite (Huniq _ _ _ Hi Hb), (Huniq _ _ _ Hj Ha), Hsym.
Qed.

(** X21. Every pair [find_highly_correlated_features] returns is made of the
    names of two different columns it considers, the smaller name first;
    no pair is returned twice, and never a pair together with its
    mirror. *)
Theorem find_highly_correlated_features_pairs (fm : FeatureMatrix V)
    (t : float) (check excl : option (gset string))
    (pairs : list (string * string)) :
  find_highly_correlated_features corr set_iter fm t check excl = Ok pairs →
  NoDup pairs
  ∧ ∀ a b, (a, b) ∈ pairs →
      String.ltb a b = true
      ∧ (∃ sa, considered fm check excl a sa)
      ∧ (∃ sb, considered fm check excl b sb)
      ∧ (b, a) ∉ pairs.
Proof.
  intros Hcall. destruct (pairs_correlated fm t check excl pairs Hcall)
    as (Hnd & Hsound & _).
  split; [done|]. intros a b Hab.
  assert (∀ x y, (x, y) ∈ pairs →
            String.ltb x y = true
            ∧ (∃ sx, considered fm check excl x sx)
            ∧ (∃ sy, considered fm check excl y sy)) as Hshape.
  { intros x y Hxy.
    destruct (Hsound _ Hxy) as (a' & sa & b' & sb & Ha & Hb & Hne & Heq & _).
    split; [by eapply sorted_pair_lt|].
    destruct (sorted_pair_inj a' b' x y) as [[-> ->]|[-> ->]]; eauto.
    unfold sorted_pair at 1. rewrite <- Heq.
    destruct (String.ltb y x) eqn:Hyx; [|done].
    symmetry in Heq. apply (sorted_pair_lt _ _ _ _ Hne) in Heq.
    apply string_ltb_asym in Heq. congruence. }
  destruct (Hshape a b Hab) as (Hlt & Ha & Hb).
  split; [done|]. split; [done|]. split; [done|].
  intros Hba. destruct (Hshape b a Hba) as (Hlt' & _).
  apply string_ltb_asym in Hlt. congruence.
Qed.

End iteration.

(** X22. The order in which Python iterates over the set of names does not
    change what is returned, only its order, when the correlation of two
    columns does not depend on which comes first: two runs that differ in
    the iteration order return permutations of the same pairs. *)
Theorem find_highly_correlated_features_iteration_order
    (set_iter1 set_iter2 : gset string → list string)
    (fm : FeatureMatrix V) (t : float) (check excl : option (gset string))
    (pairs1 : list (string * string)) :
  (∀ X, set_iter1 X ≡ₚ elements X) →
  (∀ X, set_iter2 X ≡ₚ elements X) →
  (∀ sa sb, corr sa sb = corr sb sa) →
  find_highly_correlated_features corr set_iter1 fm t check excl
  = Ok pairs1 →
  ∃ pairs2,
    find_highly_correlated_features corr set_iter2 fm t check excl
    = Ok pairs2
    ∧ pairs1 ≡ₚ pairs2.
Proof.
  intros Hiter1 Hiter2 Hsym Hcall1.
  destruct (find_highly_correlated_features_Ok set_iter1 Hiter1
              fm t check excl pairs1 Hcall1) as (Ht & Hsub & _).
  destruct (frame_to_check_considered corr set_iter2 Hiter2 fm check excl
              Hsub)
    as (f2 & Hf2 & _).
  assert (∃ pairs2,
            find_highly_correlated_features corr set_iter2 fm t check excl
            = Ok pairs2) as [pairs2 Hcall2].
  { unfold find_highly_correlated_features. rewrite Ht, Hf2. by eexists. }
  exists pairs2. split; [done|].
  destruct (pairs_correlated set_iter1 Hiter1 fm t check excl pairs1 Hcall1)
    as (Hnd1 & Hsound1 & Hcomplete1).
  destruct (pairs_correlated set_iter2 Hiter2 fm t check excl pairs2 Hcall2)
    as (Hnd2 & Hsound2 & Hcomplete2).
  apply NoDup_Permutation; [done..|]. intros p. split.
  - intros Hp. by apply Hcomplete2, Hsound1.
  - intros Hp. by apply Hcomplete1, Hsound2.
Qed.

End correlated.

(** A name that is no column is reported by [KeyError]; excluding it
    avoids the failure. *)
Lemma find_highly_correlated_features_KeyError_witness :
  let corr : pd.Series Z → pd.Series Z → float := λ _ _, 1%float in
  (∀ X : gset string, elements X ≡ₚ elements X)
  ∧ in_unit_interval 0.5
  ∧ find_highly_correlated_features corr elements
      (frame numbers_and_text) 0.5 (Some {["up"; "elsewhere"]}) None
    = Raise (KeyError "elsewhere")
  ∧ returns (find_highly_correlated_features corr elements
               (frame numbers_and_text) 0.5
               (Some {["up"; "elsewhere"]}) (Some {["elsewhere"]})).
Proof.
  intros corr.
  assert (in_unit_interval 0.5) as Ht.
  { split; vm_compute; reflexivity. }
  split; [reflexivity|]. split; [exact Ht|].
  split; [vm_compute; reflexivity|].
  destruct (find_highly_correlated_features_KeyError corr elements
              (λ X, reflexivity (elements X)) (frame numbers_and_text) 0.5
              (Some {["up"; "elsewhere"]}) (Some {["elsewhere"]}) Ht)
    as (Hret & _ & _).
  apply Hret. apply (bool_decide_unpack _). vm_compute. exact I.
Defined.

Lemma find_highly_correlated_features_pairs_witness :
  let corr : pd.Series Z → pd.Series Z → float := λ _ _, (-1)%float in
  (∀ X : gset string, elements X ≡ₚ elements X)
  ∧ find_highly_correlated_features corr elements numbers_and_text 0.75
      None None
    = Ok [("down", "up")]
  ∧ String.ltb "down" "up" = true
  ∧ (("up", "down") ∉ [("down", "up")]).
Proof.
  intros corr.
  assert (find_highly_correlated_features corr elements numbers_and_text
            0.75 None None = Ok [("down", "up")]) as Hcall.
  { vm_compute. reflexivity. }
  split; [reflexivity|]. split; [exact Hcall|].
  destruct (find_highly_correlated_features_pairs corr elements
              (λ X, reflexivity (elements X)) numbers_and_text 0.75
              None None _ Hcall) as (_ & Hshape).
  destruct (Hshape "down" "up" (list_elem_of_here _ _))
    as (Hlt & _ & _ & Hmirror).
  split; [exact Hlt|exact Hmirror].
Defined.

(** Iterating over the names backwards gives the same pairs. *)
Lemma find_highly_correlated_features_iteration_order_witness :
  let corr : pd.Series Z → pd.Series Z → float := λ _ _, (-1)%float in
  let backwards : gset string → list string := λ X, reverse (elements X) in
  (∀ X : gset string, elements X ≡ₚ elements X)
  ∧ (∀ X : gset string, backwards X ≡ₚ elements X)
  ∧ (∀ sa sb, corr sa sb = corr sb sa)
  ∧ find_highly_correlated_features corr elements numbers_and_text 0.75
      None None
    = Ok [("down", "up")]
  ∧ ∃ pairs2,
      find_highly_correlated_features corr backwards numbers_and_text 0.75
        None None
      = Ok pairs2
      ∧ [("down", "up")] ≡ₚ pairs2.
Proof.
  intros corr backwards.
  assert (∀ X : gset string, backwards X ≡ₚ elements X) as Hback.
  { intros X. apply reverse_Permutation. }
  assert (find_highly_correlated_features corr elements numbers_and_text
            0.75 None None = Ok [("down", "up")]) as Hcall.
  { vm_compute. reflexivity. }
  split; [reflexivity|]. split; [exact Hback|].
  split; [reflexivity|]. split; [exact Hcall|].
  exact (find_highly_correlated_features_iteration_order corr
           elements backwards numbers_and_text 0.75 None None _
           (λ X, reflexivity (elements X)) Hback (λ _ _, eq_refl) Hcall).
Defined.

End SelectionExtra.

(** ** Selecting more strictly *)

Module Monotone.
Import ColumnSpec ColumnSpecSpec ColumnSpecProps.
Import Selection SelectionSpec SelectionProps SelectionExtra.

Lemma filter_sublist_impl {A} (P Q : A → Prop)
    `{∀ x, Decision (P x)} `{∀ x, Decision (Q x)} (l : list A) :
  (∀ x, P x → Q x) → filter P l `sublist_of` filter Q l.
Proof.
  intros HPQ. induction l as [|x l IH]; [done|].
  rewrite !filter_cons.
  destruct (decide (P x)) as [HP|HP].
  - rewrite decide_True by auto. by apply sublist_skip.
  - destruct (decide (Q x)); [by apply sublist_cons|done].
Qed.

(** *** [get_usecols] *)

(** X23. Switching on more of the flags of [get_usecols] never adds a
    column nor changes the order: the names returned are a sublist of those
    returned with fewer flags. *)
Theorem get_usecols_more_flags (l : list colinfo)
    (numeric_only label_only exclude_skip : bool)
    (numeric_only' label_only' exclude_skip' : bool) :
  Forall has_name_and_type l →
  (numeric_only = true → numeric_only' = true) →
  (label_only = true → label_only' = true) →
  (exclude_skip = true → exclude_skip' = true) →
  ∃ names names',
    get_usecols (init l) numeric_only label_only exclude_skip = Ok names
    ∧ get_usecols (init l) numeric_only' label_only' exclude_skip'
      = Ok names'
    ∧ names' `sublist_of` names.
Proof.
  intros Hl Hn Hlo Hex. unfold get_usecols. simpl.
  rewrite !get_usecols_loop_spec by done. simpl.
  eexists _, _. split; [done|]. split; [done|].
  apply fmap_sublist, filter_sublist_impl.
  intros d (H1 & H2 & H3). unfold passes. split; [|split]; auto.
Qed.

Lemma get_usecols_more_flags_witness :
  let l : list colinfo :=
    [ {["name" := VStr "a"; "type" := VStr "number"]};
      {["name" := VStr "b"; "type" := VStr "string"]};
      {["name" := VStr "c"; "type" := VStr "bool"; "label" := VBool true]} ]
  in
  Forall has_name_and_type l
  ∧ ∃ names names',
      get_usecols (init l) true false false = Ok names
      ∧ get_usecols (init l) true false true = Ok names'
      ∧ names' `sublist_of` names.
Proof.
  intros l.
  assert (Forall has_name_and_type l) as Hl.
  { repeat constructor; vm_compute; eauto. }
  split; [exact Hl|].
  exact (get_usecols_more_flags l true false false true false true Hl
           (λ H, H) (λ H, H) (λ _, eq_refl)).
Defined.

(** *** The thresholds *)

Lemma SFcompare_le_lt_trans x y z :
  SFleb x y = true → SFltb y z = true → SFltb x z = true.
Proof.
  unfold SFleb, SFltb.
  destruct x as [sx|sx| |sx mx ex], y as [sy|sy| |sy my ey],
    z as [sz|sz| |sz mz ez]; simpl; try done;
    try (by destruct sx); try (by destruct sy); try (by destruct sz);
    try (by destruct sx, sy); try (by destruct sy, sz);
    try (by destruct sx, sz); try (by destruct sx, sy, sz).
  destruct sx, sy, sz; simpl; try done;
    change (Pos.compare_cont Eq) with Pos.compare;
    destruct (Z.compare_spec ex ey), (Z.compare_spec ey ez),
      (Z.compare_spec ex ez); simpl; try done; try lia; subst;
    destruct (Pos.compare_spec mx my), (Pos.compare_spec my mz),
      (Pos.compare_spec mx mz); simpl; try done; lia.
Qed.

Lemma SFcompare_le_le_trans x y z :
  SFleb x y = true → SFleb y z = true → SFleb x z = true.
Proof.
  unfold SFleb.
  destruct x as [sx|sx| |sx mx ex], y as [sy|sy| |sy my ey],
    z as [sz|sz| |sz mz ez]; simpl; try done;
    try (by destruct sx); try (by destruct sy); try (by destruct sz);
    try (by destruct sx, sy); try (by destruct sy, sz);
    try (by destruct sx, sz); try (by destruct sx, sy, sz).
  destruct sx, sy, sz; simpl; try done;
    change (Pos.compare_cont Eq) with Pos.compare;
    destruct (Z.compare_spec ex ey), (Z.compare_spec ey ez),
      (Z.compare_spec ex ez); simpl; try done; try lia; subst;
    destruct (Pos.compare_spec mx my), (Pos.compare_spec my mz),
      (Pos.compare_spec mx mz); simpl; try done; lia.
Qed.

Lemma float_leb_ltb_trans (x y z : float) :
  (x <=? y)%float = true → (y <? z)%float = true → (x <? z)%float = true.
Proof.
  rewrite FloatAxioms.leb_spec, !FloatAxioms.ltb_spec.
  apply SFcompare_le_lt_trans.
Qed.

Lemma float_leb_trans (x y z : float) :
  (x <=? y)%float = true → (y <=? z)%float = true → (x <=? z)%float = true.
Proof. rewrite !FloatAxioms.leb_spec. apply SFcompare_le_le_trans. Qed.

Section frames.
Context {V : Type} `{EqDecision V}.

(** X24. Raising the threshold of [find_highly_null_features] never adds a
    column nor changes the order: the names returned for the higher
    threshold are a sublist of those returned for the lower one. *)
Theorem find_highly_null_features_higher_threshold (fm : FeatureMatrix V)
    (t1 t2 : float) (names1 names2 : list string) :
  (t1 <=? t2)%float = true →
  find_highly_null_features fm t1 = Ok names1 →
  find_highly_null_features fm t2 = Ok names2 →
  names2 `sublist_of` names1.
Proof.
  intros Hle Hcall1 Hcall2.
  assert (∀ t names, find_highly_null_features fm t = Ok names →
            names = pd.columns
                      (filter (λ kv, (t <? missing_fraction kv.2)%float = true)
                              (frame fm))) as Hnames.
  { intros t names Hcall.
    destruct ((t <? 0)%float || (1 <? t)%float) eqn:Ht.
    { unfold find_highly_null_features in Hcall. by rewrite Ht in Hcall. }
    rewrite find_highly_null_features_Ok in Hcall by done. congruence. }
  rewrite (Hnames _ _ Hcall1), (Hnames _ _ Hcall2).
  apply fmap_sublist, filter_sublist_impl.
  intros kv. by apply float_leb_ltb_trans.
Qed.

(** X25. Raising the threshold of [find_highly_correlated_features] never
    adds a pair nor changes the order: the pairs returned for the higher
    threshold are a sublist of those returned for the lower one. *)
Theorem find_highly_correlated_features_higher_threshold
    (corr : pd.Series V → pd.Series V → float)
    (set_iter : gset string → list string)
    (fm : FeatureMatrix V) (t1 t2 : float)
    (check excl : option (gset string))
    (pairs1 pairs2 : list (string * string)) :
  (∀ X, set_iter X ≡ₚ elements X) →
  (t1 <=? t2)%float = true →
  find_highly_correlated_features corr set_iter fm t1 check excl
  = Ok pairs1 →
  find_highly_correlated_features corr set_iter fm t2 check excl
  = Ok pairs2 →
  pairs2 `sublist_of` pairs1.
Proof.
  intros Hiter Hle Hcall1 Hcall2.
  apply (find_highly_correlated_features_Ok corr set_iter Hiter) in Hcall1
    as (_ & _ & f1 & Hf1 & _ & _ & ->).
  apply (find_highly_correlated_features_Ok corr set_iter Hiter) in Hcall2
    as (_ & _ & f2 & Hf2 & _ & _ & ->).
  assert (f2 = f1) as -> by congruence.
  apply fmap_sublist, filter_sublist_impl.
  intros kv. by apply float_leb_trans.
Qed.

End frames.

Import SelectionExamples.

Lemma find_highly_null_features_higher_threshold_witness :
  (0.5 <=? 0.75)%float = true
  ∧ find_highly_null_features partly_missing 0.5 = Ok ["sparse"]
  ∧ find_highly_null_features partly_missing 0.75 = Ok []
  ∧ [] `sublist_of` ["sparse"].
Proof.
  assert ((0.5 <=? 0.75)%float = true) as Hle by (vm_compute; reflexivity).
  assert (find_highly_null_features partly_missing 0.5 = Ok ["sparse"])
    as H1 by (vm_compute; reflexivity).
  assert (find_highly_null_features partly_missing 0.75 = Ok [])
    as H2 by (vm_compute; reflexivity).
  split; [exact Hle|]. split; [exact H1|]. split; [exact H2|].
  exact (find_highly_null_features_higher_threshold partly_missing
           0.5 0.75 _ _ Hle H1 H2).
Defined.

Lemma find_highly_correlated_features_higher_threshold_witness :
  let corr : pd.Series Z → pd.Series Z → float := λ _ _, (-0.5)%float in
  (∀ X : gset string, elements X ≡ₚ elements X)
  ∧ (0.25 <=? 0.75)%float = true
  ∧ find_highly_correlated_features corr elements numbers_and_text 0.25
      None None
    = Ok [("down", "up")]
  ∧ find_highly_correlated_features corr elements numbers_and_text 0.75
      None None
    = Ok []
  ∧ [] `sublist_of` [("down", "up")].
Proof.
  intros corr.
  assert ((0.25 <=? 0.75)%float = true) as Hle by (vm_compute; reflexivity).
  assert (find_highly_correlated_features corr elements numbers_and_text
            0.25 None None = Ok [("down", "up")])
    as H1 by (vm_compute; reflexivity).
  assert (find_highly_correlated_features corr elements numbers_and_text
            0.75 None None = Ok [])
    as H2 by (vm_compute; reflexivity).
  split; [reflexivity|]. split; [exact Hle|].
  split; [exact H1|]. split; [exact H2|].
  exact (find_highly_correlated_features_higher_threshold corr elements
           numbers_and_text 0.25 0.75 None None _ _
           (λ X, reflexivity (elements X)) Hle H1 H2).
Defined.

End Monotone.
